(** * pitilt: motion control and state coordination

    A shallow embedding of [settings.py], [control.py] and the handlers of
    [api.py], with the properties of the motion engine, the location
    registry and the limit setters stated over it.

    Conventions of the embedding.
    - Python [int] is [Z]; Python [float] (a servo's reported angle, the
      inter-step delay) is [Q].
    - The module-level globals ([state], the two servo objects, the state
      file, the re-registration event) are the fields of one [World] that
      every function threads; an exception is an outcome, and the world at
      the raise point is kept, as in Python.
    - A servo object accepts every integer angle and reports the angle last
      written to it; [writes] records the assignments to [servo.angle] in
      program order.
    - [home_servos] has run before any handler, so both servos report a
      number. *)

From Stdlib Require Import ZArith QArith Qround Lia Lqa.
From stdpp Require Import base gmap strings list fin_maps.

Local Open Scope Z_scope.

(** ** Python builtins used by the source *)

Module Py.

(** [round(x)] on a float: nearest integer, ties to the even neighbour. *)
Definition round (x : Q) : Z :=
  let f := Qfloor x in
  match Qcompare (x - inject_Z f) (1 # 2) with
  | Lt => f
  | Gt => f + 1
  | Eq => if Z.even f then f else f + 1
  end.

(** [len(range(lo, hi, step))] for a non-zero [step]. *)
Definition range_len (lo hi step : Z) : Z :=
  if (0 <? step) && (lo <? hi) then 1 + (hi - 1 - lo) / step
  else if (step <? 0) && (hi <? lo) then 1 + (lo - 1 - hi) / (- step)
  else 0.

(** The items of [range(lo, hi, step)]; [None] is the [ValueError] raised
    for a zero step. *)
Definition range (lo hi step : Z) : option (list Z) :=
  if step =? 0 then None
  else Some (List.map (fun k : nat => lo + Z.of_nat k * step)
                      (List.seq 0 (Z.to_nat (range_len lo hi step)))).

(** [a < b] on floats. *)
Definition lt (a b : Q) : bool := negb (Qle_bool b a).

End Py.

(** ** settings.py: the managed state *)

Module ServoPosition.
Record t := mk { min : Z; max : Z; step : Z; sleep : Q }.
End ServoPosition.

Module Position.
Record t := mk { pan : ServoPosition.t; tilt : ServoPosition.t }.
End Position.

Module Location.
Record t := mk { pan : Z; tilt : Z }.
End Location.

Module State.
Record t := mk { position : Position.t; locations : gmap string Location.t }.
End State.

Section InitialState.

(** [constants.py] is not part of the sources at hand; its two servo
    defaults are taken as parameters. *)
Variable DEFAULT_SERVO_STEP : Z.
Variable DEFAULT_SERVO_SLEEP : Q.

Definition state0 : State.t :=
  State.mk
    (Position.mk
       (ServoPosition.mk 0 270 DEFAULT_SERVO_STEP DEFAULT_SERVO_SLEEP)
       (ServoPosition.mk 0 135 DEFAULT_SERVO_STEP DEFAULT_SERVO_SLEEP))
    {[ "home" := Location.mk 60 45 ]}.

End InitialState.

(** ** The world the program runs in *)

(** The two servo objects of [control.py]. *)
Inductive Servo := servo_pan | servo_tilt.

Record World := mkWorld {
  state : State.t;                  (* settings.state *)
  pan_angle : Q;                    (* servo_pan.angle *)
  tilt_angle : Q;                   (* servo_tilt.angle *)
  writes : list (Servo * Z);        (* assignments to servo.angle, oldest first *)
  state_file : option State.t;      (* what save_state last wrote *)
  ha_reregister_event : bool        (* mqtt.ha_reregister_event *)
}.

Inductive exn := ValueError | KeyError | TypeError.

Inductive outcome (A : Type) :=
| Ret (a : A)
| Raise (e : exn).
Arguments Ret {A} a.
Arguments Raise {A} e.

(** A computation reads and updates the world and either returns or raises. *)
Definition M (A : Type) : Type := World → outcome A * World.

#[global] Instance M_ret : MRet M := λ A a w, (Ret a, w).

#[global] Instance M_bind : MBind M := λ A B f c w,
  match c w with
  | (Ret a, w') => f a w'
  | (Raise e, w') => (Raise e, w')
  end.

Definition raise {A} (e : exn) : M A := λ w, (Raise e, w).

(** [for x in xs: body(x)] *)
Fixpoint for_each {A} (xs : list A) (body : A → M unit) : M unit :=
  match xs with
  | [] => mret tt
  | x :: xs' => body x;; for_each xs' body
  end.

(** [range(lo, hi, step)] as an effect. *)
Definition range (lo hi step : Z) : M (list Z) :=
  match Py.range lo hi step with
  | Some xs => mret xs
  | None => raise ValueError
  end.

(** [time.sleep(s)]: a negative delay is a [ValueError]. *)
Definition time_sleep (s : Q) : M unit :=
  if Py.lt s 0 then raise ValueError else mret tt.

(** [settings.get_state()] *)
Definition get_state : M State.t := λ w, (Ret (state w), w).

Definition set_state (s : State.t) : M unit := λ w,
  (Ret tt, mkWorld s (pan_angle w) (tilt_angle w) (writes w)
                   (state_file w) (ha_reregister_event w)).

Definition angle_of (sv : Servo) (w : World) : Q :=
  match sv with servo_pan => pan_angle w | servo_tilt => tilt_angle w end.

(** [servo.angle] *)
Definition angle (sv : Servo) : M Q := λ w, (Ret (angle_of sv w), w).

(** [servo.angle = i]. The driver's range check and the quantisation of
    the angle it reports back are not modelled: the assignment is always
    accepted and read back as written. Statements about the trace of
    writes of one call do not use the read-back. *)
Definition set_angle (sv : Servo) (i : Z) : M unit := λ w,
  (Ret tt,
   match sv with
   | servo_pan =>
       mkWorld (state w) (inject_Z i) (tilt_angle w) (writes w ++ [(sv, i)])
               (state_file w) (ha_reregister_event w)
   | servo_tilt =>
       mkWorld (state w) (pan_angle w) (inject_Z i) (writes w ++ [(sv, i)])
               (state_file w) (ha_reregister_event w)
   end).

(** [settings.save_state()]: the state document as written to disk. *)
Definition save_state : M unit := λ w,
  (Ret tt, mkWorld (state w) (pan_angle w) (tilt_angle w) (writes w)
                   (Some (state w)) (ha_reregister_event w)).

(** [ha_reregister_event.set()] *)
Definition ha_reregister_event_set : M unit := λ w,
  (Ret tt, mkWorld (state w) (pan_angle w) (tilt_angle w) (writes w)
                   (state_file w) true).

(** Dictionaries returned by the handlers. A key is a string or, in
    [get_pan] and [get_tilt], one of the function objects [control.pan] and
    [control.tilt]. *)
Inductive key := Str (s : string) | Fn_pan | Fn_tilt.

Inductive json := JStr (s : string) | JInt (z : Z).

Definition dict : Type := list (key * json).

(** ** control.py: the motion engine *)

Module control.

Definition get_angle_as_int (sv : Servo) : M Z :=
  a ← angle sv; mret (Py.round a).

Definition clamp (val min_val max_val : Z) : Z :=
  Z.max min_val (Z.min val max_val).

Definition move_servo (sv : Servo) (step : Z) (sleep : Q) (want : Z) : M unit :=
  current ← get_angle_as_int sv;
  a ← angle sv;
  let direction := if Py.lt a (inject_Z want) then 1 else -1 in
  items ← range (Z.max 0 current) (want + direction) (step * direction);
  for_each items (λ i, set_angle sv i;; time_sleep sleep).

Definition pan (i : Z) (relative : bool) : M Z :=
  current ← get_angle_as_int servo_pan;
  s ← get_state;
  let want := clamp (i + (if relative then current else 0))
                    (ServoPosition.min (Position.pan (State.position s)))
                    (ServoPosition.max (Position.pan (State.position s))) in
  move_servo servo_pan
             (ServoPosition.step (Position.pan (State.position s)))
             (ServoPosition.sleep (Position.pan (State.position s))) want;;
  mret want.

Definition tilt (i : Z) (relative : bool) : M Z :=
  current ← get_angle_as_int servo_tilt;
  s ← get_state;
  let want := clamp (i + (if relative then current else 0))
                    (ServoPosition.min (Position.tilt (State.position s)))
                    (ServoPosition.max (Position.tilt (State.position s))) in
  move_servo servo_tilt
             (ServoPosition.step (Position.tilt (State.position s)))
             (ServoPosition.sleep (Position.tilt (State.position s))) want;;
  mret want.

(** Returns the not-found dictionary, or [None] after the two moves. *)
Definition move_location (name : string) : M (option dict) :=
  s ← get_state;
  match State.locations s !! name with
  | None => mret (Some [(Str "status", JStr "not found")])
  | Some loc =>
      let want_pan := clamp (Location.pan loc)
                            (ServoPosition.min (Position.pan (State.position s)))
                            (ServoPosition.max (Position.pan (State.position s))) in
      let want_tilt := clamp (Location.tilt loc)
                             (ServoPosition.min (Position.tilt (State.position s)))
                             (ServoPosition.max (Position.tilt (State.position s))) in
      move_servo servo_pan
                 (ServoPosition.step (Position.pan (State.position s)))
                 (ServoPosition.sleep (Position.pan (State.position s))) want_pan;;
      s' ← get_state;
      move_servo servo_tilt
                 (ServoPosition.step (Position.tilt (State.position s')))
                 (ServoPosition.sleep (Position.tilt (State.position s'))) want_tilt;;
      mret None
  end.

Definition get_current_tilt_position : M Z := get_angle_as_int servo_tilt.

Definition get_current_pan_position : M Z := get_angle_as_int servo_pan.

Definition move_down : M Z := tilt 2 true.

Definition move_up : M Z := tilt (-2) true.

Definition move_left : M Z := pan 2 true.

Definition move_right : M Z := pan (-2) true.

End control.

(** ** api.py: the HTTP handlers, after authentication *)

Module api.

Definition STATUS_GOOD : dict := [(Str "status", JStr "ok")].

Definition save_state_and_update_ha : M unit :=
  save_state;; ha_reregister_event_set.

(** [asdict] is applied to the [locations] dict, which is not a dataclass
    instance: it raises [TypeError]. *)
Definition list_locations : M string := raise TypeError.

Definition get_pan : M dict :=
  v ← control.get_current_tilt_position; mret [(Fn_pan, JInt v)].

Definition get_tilt : M dict :=
  v ← control.get_current_tilt_position; mret [(Fn_tilt, JInt v)].

Definition api_move_location (name : string) : M dict :=
  control.move_location name;; mret STATUS_GOOD.

Definition save_location (name : string) : M dict :=
  p ← control.get_current_pan_position;
  t ← control.get_current_tilt_position;
  s ← get_state;
  set_state (State.mk (State.position s)
                      (<[name := Location.mk p t]> (State.locations s)));;
  save_state_and_update_ha;;
  mret STATUS_GOOD.

(** [del d[name]] raises [KeyError] for a missing key. *)
Definition delete_location (name : string) : M dict :=
  s ← get_state;
  match State.locations s !! name with
  | None => raise KeyError
  | Some _ =>
      set_state (State.mk (State.position s) (delete name (State.locations s)));;
      save_state_and_update_ha;;
      mret STATUS_GOOD
  end.

(** Assignments to one field of one axis of [get_state().position]. *)
Definition with_min (v : Z) (p : ServoPosition.t) : ServoPosition.t :=
  ServoPosition.mk v (ServoPosition.max p) (ServoPosition.step p) (ServoPosition.sleep p).

Definition with_max (v : Z) (p : ServoPosition.t) : ServoPosition.t :=
  ServoPosition.mk (ServoPosition.min p) v (ServoPosition.step p) (ServoPosition.sleep p).

Definition with_step (v : Z) (p : ServoPosition.t) : ServoPosition.t :=
  ServoPosition.mk (ServoPosition.min p) (ServoPosition.max p) v (ServoPosition.sleep p).

Definition with_sleep (v : Q) (p : ServoPosition.t) : ServoPosition.t :=
  ServoPosition.mk (ServoPosition.min p) (ServoPosition.max p) (ServoPosition.step p) v.

Definition update_tilt (f : ServoPosition.t → ServoPosition.t) : M unit :=
  s ← get_state;
  set_state (State.mk (Position.mk (Position.pan (State.position s))
                                   (f (Position.tilt (State.position s))))
                      (State.locations s)).

Definition update_pan (f : ServoPosition.t → ServoPosition.t) : M unit :=
  s ← get_state;
  set_state (State.mk (Position.mk (f (Position.pan (State.position s)))
                                   (Position.tilt (State.position s)))
                      (State.locations s)).

(** The guard [value and value.value]: the value to store when the guard
    holds. An absent body and a zero value are both falsy. *)
Definition truthy_value (value : option Z) : option Z :=
  match value with
  | Some v => if v =? 0 then None else Some v
  | None => None
  end.

Definition tilt_sleep (value : Q) : M dict :=
  update_tilt (with_sleep value);;
  save_state_and_update_ha;;
  mret STATUS_GOOD.

Definition tilt_step (value : Z) : M dict :=
  update_tilt (with_step value);;
  save_state_and_update_ha;;
  mret STATUS_GOOD.

Definition tilt_max (value : option Z) : M dict :=
  match truthy_value value with
  | Some v => update_tilt (with_max v)
  | None => c ← control.get_current_tilt_position; update_tilt (with_max c)
  end;;
  save_state_and_update_ha;;
  mret STATUS_GOOD.

Definition tilt_min (value : option Z) : M dict :=
  match truthy_value value with
  | Some v => update_tilt (with_min v)
  | None => c ← control.get_current_tilt_position; update_tilt (with_min c)
  end;;
  save_state_and_update_ha;;
  mret STATUS_GOOD.

Definition pan_sleep (value : Q) : M dict :=
  update_pan (with_sleep value);;
  save_state_and_update_ha;;
  mret STATUS_GOOD.

Definition pan_step (value : Z) : M dict :=
  update_pan (with_step value);;
  save_state_and_update_ha;;
  mret STATUS_GOOD.

Definition pan_max (value : option Z) : M dict :=
  match truthy_value value with
  | Some v => update_pan (with_max v)
  | None => c ← control.get_current_pan_position; update_pan (with_max c)
  end;;
  save_state_and_update_ha;;
  mret STATUS_GOOD.

Definition pan_min (value : option Z) : M dict :=
  match truthy_value value with
  | Some v => update_pan (with_min v)
  | None => c ← control.get_current_pan_position; update_pan (with_min c)
  end;;
  save_state_and_update_ha;;
  mret STATUS_GOOD.

Definition api_pan (value : Z) (relative : bool) : M dict :=
  control.pan value relative;; mret STATUS_GOOD.

Definition api_tilt (value : Z) (relative : bool) : M dict :=
  control.tilt value relative;; mret STATUS_GOOD.

Definition api_move_down : M dict :=
  v ← control.move_down; mret (STATUS_GOOD ++ [(Str "tilt", JInt v)]).

Definition api_move_up : M dict :=
  v ← control.move_up; mret (STATUS_GOOD ++ [(Str "tilt", JInt v)]).

Definition api_move_left : M dict :=
  v ← control.move_left; mret (STATUS_GOOD ++ [(Str "pan", JInt v)]).

Definition api_move_right : M dict :=
  v ← control.move_right; mret (STATUS_GOOD ++ [(Str "pan", JInt v)]).

End api.

(** ** mqtt.py: the command handler, after JSON decoding *)

Module mqtt.

Definition COMMAND_MOVE_REL : string := "move_rel".
Definition COMMAND_LOCATION : string := "location".
Definition MOVE_REL_LEFT : string := "left".
Definition MOVE_REL_RIGHT : string := "right".
Definition MOVE_REL_UP : string := "up".
Definition MOVE_REL_DOWN : string := "down".

Definition on_message (command argument : string) : M unit :=
  if bool_decide (command = COMMAND_MOVE_REL) && bool_decide (argument = MOVE_REL_UP)
  then control.move_up;; mret tt
  else if bool_decide (command = COMMAND_MOVE_REL) && bool_decide (argument = MOVE_REL_DOWN)
  then control.move_down;; mret tt
  else if bool_decide (command = COMMAND_MOVE_REL) && bool_decide (argument = MOVE_REL_LEFT)
  then control.move_left;; mret tt
  else if bool_decide (command = COMMAND_MOVE_REL) && bool_decide (argument = MOVE_REL_RIGHT)
  then control.move_right;; mret tt
  else if bool_decide (command = COMMAND_LOCATION)
  then control.move_location argument;; mret tt
  else mret tt.

End mqtt.

(** ** The operations reachable from the two ingress paths *)

Inductive request :=
| GET_locations
| GET_pan
| GET_tilt
| PUT_locations (name : string)
| POST_locations (name : string)
| DELETE_locations (name : string)
| PUT_tilt_sleep (value : Q)
| PUT_tilt_step (value : Z)
| PUT_tilt_max (value : option Z)
| PUT_tilt_min (value : option Z)
| PUT_pan_sleep (value : Q)
| PUT_pan_step (value : Z)
| PUT_pan_max (value : option Z)
| PUT_pan_min (value : option Z)
| PUT_pan (value : Z) (relative : bool)
| PUT_tilt (value : Z) (relative : bool)
| POST_down
| POST_up
| POST_left
| POST_right
| MQTT (command argument : string).

(** Route a request to its handler; the response body is dropped. *)
Definition serve (r : request) : M unit :=
  match r with
  | GET_locations => api.list_locations;; mret tt
  | GET_pan => api.get_pan;; mret tt
  | GET_tilt => api.get_tilt;; mret tt
  | PUT_locations name => api.api_move_location name;; mret tt
  | POST_locations name => api.save_location name;; mret tt
  | DELETE_locations name => api.delete_location name;; mret tt
  | PUT_tilt_sleep v => api.tilt_sleep v;; mret tt
  | PUT_tilt_step v => api.tilt_step v;; mret tt
  | PUT_tilt_max v => api.tilt_max v;; mret tt
  | PUT_tilt_min v => api.tilt_min v;; mret tt
  | PUT_pan_sleep v => api.pan_sleep v;; mret tt
  | PUT_pan_step v => api.pan_step v;; mret tt
  | PUT_pan_max v => api.pan_max v;; mret tt
  | PUT_pan_min v => api.pan_min v;; mret tt
  | PUT_pan v rel => api.api_pan v rel;; mret tt
  | PUT_tilt v rel => api.api_tilt v rel;; mret tt
  | POST_down => api.api_move_down;; mret tt
  | POST_up => api.api_move_up;; mret tt
  | POST_left => api.api_move_left;; mret tt
  | POST_right => api.api_move_right;; mret tt
  | MQTT c a => mqtt.on_message c a
  end.

(** ** The HTTP route layer *)

(** A route answers with the dict its handler returns, as a JSON object,
    and the names of a JSON object are strings. A key that is one of the
    function objects has no JSON form: building the response raises
    [TypeError], and the request fails instead of delivering the dict. *)
Definition response_key (k : key) : M string :=
  match k with
  | Str s => mret s
  | Fn_pan | Fn_tilt => raise TypeError
  end.

Fixpoint response_body (d : dict) : M (list (string * json)) :=
  match d with
  | [] => mret []
  | (k, v) :: d' =>
      s ← response_key k; body ← response_body d'; mret ((s, v) :: body)
  end.

Definition route (handler : M dict) : M (list (string * json)) :=
  d ← handler; response_body d.

(** ** Specification vocabulary *)

(** The limits record of an axis. *)
Definition limits (sv : Servo) (s : State.t) : ServoPosition.t :=
  match sv with
  | servo_pan => Position.pan (State.position s)
  | servo_tilt => Position.tilt (State.position s)
  end.

(** [MoveAxis]: [control.pan] or [control.tilt]. *)
Definition move_axis (sv : Servo) : Z → bool → M Z :=
  match sv with
  | servo_pan => control.pan
  | servo_tilt => control.tilt
  end.

(** The sign [move_servo] picks for a servo reporting [a]. *)
Definition direction (a : Q) (want : Z) : Z :=
  if Py.lt a (inject_Z want) then 1 else -1.

(** The first angle of the stepping loop. *)
Definition start_angle (a : Q) : Z := Z.max 0 (Py.round a).

(** The angles the stepping loop of [move_servo] iterates over. *)
Definition plan (a : Q) (step want : Z) : option (list Z) :=
  Py.range (start_angle a) (want + direction a want) (step * direction a want).

(** The world after assigning [items], in order, to [sv.angle]. *)
Definition emit (sv : Servo) (items : list Z) (w : World) : World :=
  fold_left (λ w' i, (set_angle sv i w').2) items w.

(** The target [move_axis] computes before it moves. *)
Definition target (sv : Servo) (i : Z) (relative : bool) (w : World) : Z :=
  control.clamp (i + (if relative then Py.round (angle_of sv w) else 0))
                (ServoPosition.min (limits sv (state w)))
                (ServoPosition.max (limits sv (state w))).

(** What the loop of [move_servo] does with [items]: with a negative delay
    the first [time.sleep] raises, after the first assignment. *)
Definition loop_result (sv : Servo) (sleep : Q) (items : list Z) (w : World)
  : outcome unit * World :=
  if Py.lt sleep 0 then
    match items with
    | [] => (Ret tt, w)
    | i :: _ => (Raise ValueError, emit sv [i] w)
    end
  else (Ret tt, emit sv items w).

(** The assignments to [servo.angle] made between two worlds of one run. *)
Definition written_during (w w' : World) : list (Servo * Z) :=
  drop (length (writes w)) (writes w').

(** A world with the stock limits, step 2, no delay, pan at 10 and tilt at 20. *)
Definition example_world : World :=
  mkWorld (state0 2 0) (inject_Z 10) (inject_Z 20) [] None false.

(** Pan limits tightened to 50..270 while the pan servo still reports 10. *)
Definition tightened_world : World :=
  mkWorld (State.mk (Position.mk (ServoPosition.mk 50 270 2 0)
                                 (ServoPosition.mk 0 135 2 0))
                    {[ "home" := Location.mk 60 45 ]})
          (inject_Z 10) (inject_Z 20) [] None false.

(** Requests are served one after the other; a request that raises leaves
    the world as it was at the raise, and the next one is served from there. *)
Definition run_requests (rs : list request) (w : World) : World :=
  fold_left (λ w' r, (serve r w').2) rs w.

(** The world after [setup()] found no state file and wrote the defaults. *)
Definition initial_world (step : Z) (sleep pan tilt : Q) : World :=
  mkWorld (state0 step sleep) pan tilt [] (Some (state0 step sleep)) false.

(** [SetLimit(axis, max, value)] and [SetLimit(axis, min, value)]. *)
Definition set_max (sv : Servo) : option Z → M dict :=
  match sv with servo_pan => api.pan_max | servo_tilt => api.tilt_max end.

Definition set_min (sv : Servo) : option Z → M dict :=
  match sv with servo_pan => api.pan_min | servo_tilt => api.tilt_min end.

(** The stock state with the pan servo at 37 and the tilt servo at 20. *)
Definition world_at_37 : World :=
  mkWorld (state0 2 0) (inject_Z 37) (inject_Z 20) [] None false.

(** The stock limits with step 3, pan at 10 and tilt at 20. *)
Definition step3_world : World :=
  mkWorld (state0 3 0) (inject_Z 10) (inject_Z 20) [] None false.

(** ** control.py: startup homing *)

(** [home_servos]. A servo's angle is [None] after power off; the two flags
    say whether [servo_pan.angle] and [servo_tilt.angle] are [None] when the
    function starts. A servo whose angle is [None] is assigned the home
    coordinate before anything reads its angle. The function has no
    [return]: the result of [move_location] is dropped. The two
    [actuation_range] assignments set the driver's range to the axis
    maxima; the world holds no driver configuration, so they leave it as
    it is, and what is proved of the direct assignments is stated for
    coordinates inside that range. *)
Definition home_servos (pan_is_none tilt_is_none : bool) : M unit :=
  (if pan_is_none then
     s ← get_state;
     match State.locations s !! "home" with
     | Some loc => set_angle servo_pan (Location.pan loc)
     | None => raise KeyError
     end
   else mret tt);;
  (if tilt_is_none then
     s ← get_state;
     match State.locations s !! "home" with
     | Some loc => set_angle servo_tilt (Location.tilt loc)
     | None => raise KeyError
     end
   else mret tt);;
  control.move_location "home";;
  mret tt.

(** ** settings.py: the state document *)

#[local] Set Warnings "-register-all,-clear-no-such-hyp".

(** A JSON document: the value [json.dump] is given and [json.load]
    returns. The text of the file in between is not modelled. *)
Inductive pyobj :=
| PNone
| PBool (b : bool)
| PInt (z : Z)
| PFloat (q : Q)
| PStr (s : string)
| PList (l : list pyobj)
| PDict (d : gmap string pyobj).

(** [asdict] on the dataclasses of the state; this is what [save_state]
    hands to [json.dump]. *)
Definition asdict_ServoPosition (p : ServoPosition.t) : pyobj :=
  PDict {[ "min" := PInt (ServoPosition.min p);
           "max" := PInt (ServoPosition.max p);
           "step" := PInt (ServoPosition.step p);
           "sleep" := PFloat (ServoPosition.sleep p) ]}.

Definition asdict_Location (l : Location.t) : pyobj :=
  PDict {[ "pan" := PInt (Location.pan l); "tilt" := PInt (Location.tilt l) ]}.

Definition asdict_State (s : State.t) : pyobj :=
  PDict {[ "position" :=
             PDict {[ "pan" := asdict_ServoPosition (Position.pan (State.position s));
                      "tilt" := asdict_ServoPosition (Position.tilt (State.position s)) ]};
           "locations" := PDict (asdict_Location <$> State.locations s) ]}.

(** The ways the [try] block of [load_state] stops: a [TypeError] is caught
    and turned into [sys.exit] with a diagnostic; a [KeyError] or an
    [AttributeError] is not caught. *)
Inductive load_error := SysExit | UncaughtKeyError | UncaughtAttributeError.

Inductive load_result (A : Type) :=
| Constructed (a : A)
| Stopped (e : load_error).
Arguments Constructed {A} a.
Arguments Stopped {A} e.

#[global] Instance load_result_ret : MRet load_result := λ A a, Constructed a.

#[global] Instance load_result_bind : MBind load_result := λ A B f r,
  match r with
  | Constructed a => f a
  | Stopped e => Stopped e
  end.

(** [o[k]] with a string key: a missing key of a dict is a [KeyError], and
    no other JSON value can be indexed by a string. *)
Definition subscript (o : pyobj) (k : string) : load_result pyobj :=
  match o with
  | PDict d =>
      match d !! k with
      | Some v => Constructed v
      | None => Stopped UncaughtKeyError
      end
  | _ => Stopped SysExit
  end.

(** A JSON number for an [int] field, and for a [float] field. *)
Definition as_int (o : pyobj) : option Z :=
  match o with PInt z => Some z | _ => None end.

Definition as_float (o : pyobj) : option Q :=
  match o with PFloat q => Some q | PInt z => Some (inject_Z z) | _ => None end.

(** Calling a dataclass with [o] unpacked as its keyword arguments: [o] has
    to be a mapping whose keys are exactly the fields, or the call is a
    [TypeError]. *)
Definition kwargs (fields : gset string) (o : pyobj) : load_result (gmap string pyobj) :=
  match o with
  | PDict d => if decide (dom d = fields) then Constructed d else Stopped SysExit
  | _ => Stopped SysExit
  end.

(** A dataclass stores whatever it is given. The embedding holds the state
    with the annotated types only, so a constructed object is [Some] when
    its fields are numbers of the annotated kind and [None] otherwise. *)
Definition ServoPosition_kwargs (o : pyobj) : load_result (option ServoPosition.t) :=
  d ← kwargs {[ "min"; "max"; "step"; "sleep" ]} o;
  mret (a ← d !! "min" ≫= as_int;
        b ← d !! "max" ≫= as_int;
        c ← d !! "step" ≫= as_int;
        e ← d !! "sleep" ≫= as_float;
        Some (ServoPosition.mk a b c e)).

Definition Location_kwargs (o : pyobj) : load_result (option Location.t) :=
  d ← kwargs {[ "pan"; "tilt" ]} o;
  mret (a ← d !! "pan" ≫= as_int;
        b ← d !! "tilt" ≫= as_int;
        Some (Location.mk a b)).

Definition is_constructed {A} (r : load_result A) : bool :=
  match r with Constructed _ => true | Stopped _ => false end.

Definition constructed_value {A} (r : load_result (option A)) : option A :=
  match r with Constructed a => a | Stopped _ => None end.

(** The dict comprehension over [o.items()] that builds a [Location] from
    each entry: only a dict has [items]; an entry that does not fit the
    [Location] constructor stops the comprehension with a [TypeError]. *)
Definition locations_from (o : pyobj) : load_result (option (gmap string Location.t)) :=
  match o with
  | PDict d =>
      if decide (map_Forall (λ _ v, is_constructed (Location_kwargs v) = true) d)
      then let r := (λ v, constructed_value (Location_kwargs v)) <$> d in
           Constructed (if decide (map_Forall (λ _ x, is_Some x) r)
                        then Some (omap id r) else None)
      else Stopped SysExit
  | _ => Stopped UncaughtAttributeError
  end.

(** The [try] block of [load_state] on the document read from the file. *)
Definition state_from_document (data : pyobj) : load_result (option State.t) :=
  position ← subscript data "position";
  pan_doc ← subscript position "pan";
  pan ← ServoPosition_kwargs pan_doc;
  position' ← subscript data "position";
  tilt_doc ← subscript position' "tilt";
  tilt ← ServoPosition_kwargs tilt_doc;
  locations_doc ← subscript data "locations";
  locations ← locations_from locations_doc;
  mret (p ← pan; t ← tilt; l ← locations; Some (State.mk (Position.mk p t) l)).

(** [load_state] on the content of the state file ([None]: no file) and the
    current module-level state: it answers the new state and the file it
    leaves. Without a file, [save_state] writes the current state. *)
Definition load_state (file : option pyobj) (current : State.t)
  : load_result (option State.t) * option pyobj :=
  match file with
  | Some data => (state_from_document data, file)
  | None => (Constructed (Some current), Some (asdict_State current))
  end.

(** Edits of a document, to describe damaged state files. *)
Definition without_key (k : string) (o : pyobj) : pyobj :=
  match o with PDict d => PDict (delete k d) | _ => o end.

Definition with_key (k : string) (v : pyobj) (o : pyobj) : pyobj :=
  match o with PDict d => PDict (<[k := v]> d) | _ => o end.

Definition at_key (k : string) (f : pyobj → pyobj) (o : pyobj) : pyobj :=
  match o with PDict d => PDict (alter f k d) | _ => o end.

(** ** Facts about the builtins *)

Lemma round_inject_Z (z : Z) : Py.round (inject_Z z) = z.
Proof.
  unfold Py.round. rewrite Qfloor_Z.
  replace (Qcompare (inject_Z z - inject_Z z) (1 # 2)) with Lt; [done|].
  symmetry. unfold Qcompare, Qminus, Qplus, Qopp, inject_Z. simpl.
  apply Z.compare_lt_iff. lia.
Qed.

Lemma lt_inject_Z (a b : Z) : Py.lt (inject_Z a) (inject_Z b) = (a <? b).
Proof.
  unfold Py.lt, Qle_bool, inject_Z. simpl. rewrite !Z.mul_1_r.
  destruct (Z.leb_spec b a), (Z.ltb_spec a b); simpl; auto; lia.
Qed.

Lemma range_len_pos_step (lo hi step : Z) (k : Z) :
  0 < step → 0 <= k < Py.range_len lo hi step → lo <= lo + k * step < hi.
Proof.
  intros Hs [Hk0 Hk]. unfold Py.range_len in Hk.
  destruct (Z.ltb_spec 0 step); [|lia]. simpl in Hk.
  destruct (Z.ltb_spec lo hi); simpl in Hk.
  - pose proof (Z.mul_div_le (hi - 1 - lo) step Hs). nia.
  - destruct (Z.ltb_spec step 0); simpl in Hk; lia.
Qed.

Lemma range_len_neg_step (lo hi step : Z) (k : Z) :
  step < 0 → 0 <= k < Py.range_len lo hi step → hi < lo + k * step <= lo.
Proof.
  intros Hs [Hk0 Hk]. unfold Py.range_len in Hk.
  destruct (Z.ltb_spec 0 step); [lia|]. simpl in Hk.
  destruct (Z.ltb_spec step 0); [|lia]. simpl in Hk.
  destruct (Z.ltb_spec hi lo); simpl in Hk; [|lia].
  assert (0 < - step) as Hs' by lia.
  pose proof (Z.mul_div_le (lo - 1 - hi) (- step) Hs'). nia.
Qed.

(** Every item of a range lies between its first item and its bound. *)
Lemma range_items_between (lo hi step : Z) (xs : list Z) (x : Z) :
  Py.range lo hi step = Some xs → x ∈ xs →
  (0 < step ∧ lo <= x < hi) ∨ (step < 0 ∧ hi < x <= lo).
Proof.
  unfold Py.range. destruct (Z.eqb_spec step 0) as [|Hne]; [done|].
  intros [= <-] Hin. apply list_elem_of_In, in_map_iff in Hin.
  destruct Hin as (k & <- & Hk). apply in_seq in Hk.
  assert (0 <= Z.of_nat k < Py.range_len lo hi step) as Hk' by lia.
  destruct (Z.lt_trichotomy step 0) as [Hs|[Hs|Hs]]; [|lia|].
  - right. split; [done|]. by apply range_len_neg_step.
  - left. split; [done|]. by apply range_len_pos_step.
Qed.

Lemma clamp_within (val lo hi : Z) :
  lo <= hi → lo <= control.clamp val lo hi <= hi.
Proof. unfold control.clamp. lia. Qed.

Lemma clamp_inside (val lo hi : Z) :
  lo <= val <= hi → control.clamp val lo hi = val.
Proof. unfold control.clamp. lia. Qed.

(** ** The stepping loop *)

Lemma emit_cons (sv : Servo) (i : Z) (items : list Z) (w : World) :
  emit sv (i :: items) w = emit sv items (set_angle sv i w).2.
Proof. reflexivity. Qed.

Lemma emit_snoc (sv : Servo) (i : Z) (items : list Z) (w : World) :
  emit sv (items ++ [i]) w = (set_angle sv i (emit sv items w)).2.
Proof. unfold emit. by rewrite fold_left_app. Qed.

Lemma writes_emit (sv : Servo) (items : list Z) (w : World) :
  writes (emit sv items w) = writes w ++ map (pair sv) items.
Proof.
  revert w. induction items as [|i items IH]; intros w.
  - simpl. by rewrite app_nil_r.
  - rewrite emit_cons, IH. destruct sv; simpl; by rewrite <- app_assoc.
Qed.

Lemma state_emit (sv : Servo) (items : list Z) (w : World) :
  state (emit sv items w) = state w.
Proof.
  revert w. induction items as [|i items IH]; intros w; [done|].
  rewrite emit_cons, IH. by destruct sv.
Qed.

Lemma state_file_emit (sv : Servo) (items : list Z) (w : World) :
  state_file (emit sv items w) = state_file w.
Proof.
  revert w. induction items as [|i items IH]; intros w; [done|].
  rewrite emit_cons, IH. by destruct sv.
Qed.

Lemma angle_emit_other (sv sv' : Servo) (items : list Z) (w : World) :
  sv ≠ sv' → angle_of sv' (emit sv items w) = angle_of sv' w.
Proof.
  intros Hne. revert w. induction items as [|i items IH]; intros w; [done|].
  rewrite emit_cons, IH. by destruct sv, sv'.
Qed.

(** After the loop the servo reports the last angle assigned, if any. *)
Lemma angle_emit (sv : Servo) (items : list Z) (w : World) :
  angle_of sv (emit sv items w) =
  match last items with
  | Some i => inject_Z i
  | None => angle_of sv w
  end.
Proof.
  destruct items as [|i items _] using rev_ind; [done|].
  rewrite emit_snoc, last_snoc. by destruct sv.
Qed.

Lemma stepping_loop (sv : Servo) (sleep : Q) (items : list Z) (w : World) :
  for_each items (λ i, set_angle sv i;; time_sleep sleep) w
  = loop_result sv sleep items w.
Proof.
  unfold loop_result. destruct (Py.lt sleep 0) eqn:Hs.
  - destruct items as [|i items]; [done|].
    simpl. unfold mbind, M_bind, time_sleep. simpl. by rewrite Hs.
  - revert w. induction items as [|i items IH]; intros w; [done|].
    rewrite emit_cons, <- IH. simpl. unfold mbind, M_bind, time_sleep at 1.
    simpl. by rewrite Hs.
Qed.

(** [move_servo] as a function of the world it starts in. *)
Lemma move_servo_run (sv : Servo) (step : Z) (sleep : Q) (want : Z) (w : World) :
  control.move_servo sv step sleep want w =
  match plan (angle_of sv w) step want with
  | None => (Raise ValueError, w)
  | Some items => loop_result sv sleep items w
  end.
Proof.
  unfold control.move_servo, plan, start_angle, direction, range.
  unfold mbind, M_bind, control.get_angle_as_int, angle. simpl.
  destruct (Py.range _ _ _) as [items|]; [|done].
  simpl. apply stepping_loop.
Qed.

(** [pan] and [tilt]: clamp, move, return the clamped target. *)
Lemma move_axis_run (sv : Servo) (i : Z) (relative : bool) (w : World) :
  move_axis sv i relative w =
  match control.move_servo sv (ServoPosition.step (limits sv (state w)))
                           (ServoPosition.sleep (limits sv (state w)))
                           (target sv i relative w) w with
  | (Ret _, w') => (Ret (target sv i relative w), w')
  | (Raise e, w') => (Raise e, w')
  end.
Proof. destruct sv; reflexivity. Qed.

Lemma written_during_refl (w : World) : written_during w w = [].
Proof. unfold written_during. by rewrite drop_all. Qed.

Lemma written_during_emit (sv : Servo) (items : list Z) (w : World) :
  written_during w (emit sv items w) = map (pair sv) items.
Proof. unfold written_during. by rewrite writes_emit, drop_app_length. Qed.

Lemma direction_cases (a : Q) (want : Z) :
  direction a want = 1 ∨ direction a want = -1.
Proof. unfold direction. destruct (Py.lt _ _); auto. Qed.

(** Every item of the plan lies between the start and the wanted angle. *)
Lemma plan_between (a : Q) (step want : Z) (items : list Z) (x : Z) :
  plan a step want = Some items → x ∈ items →
  Z.min (start_angle a) want <= x <= Z.max (start_angle a) want.
Proof.
  unfold plan, direction. intros Hp Hx.
  destruct (range_items_between _ _ _ _ _ Hp Hx) as [[_ Hb]|[_ Hb]];
    destruct (Py.lt a (inject_Z want)); lia.
Qed.

(** What [move_servo] assigns: a prefix of its plan, to its own servo. *)
Lemma move_servo_written (sv : Servo) (step : Z) (sleep : Q) (want : Z) (w : World) :
  ∃ items, written_during w (control.move_servo sv step sleep want w).2 = map (pair sv) items
           ∧ ∀ x, x ∈ items →
               Z.min (start_angle (angle_of sv w)) want <= x
               <= Z.max (start_angle (angle_of sv w)) want.
Proof.
  rewrite move_servo_run. destruct (plan _ _ _) as [items|] eqn:Hp; simpl.
  - unfold loop_result. destruct (Py.lt sleep 0).
    + destruct items as [|i items]; cbn [snd].
      * exists []. rewrite written_during_refl. split; [done|]. by intros x ?%elem_of_nil.
      * exists [i]. rewrite written_during_emit. split; [done|].
        intros x ->%list_elem_of_singleton. eapply plan_between; [done|]. left.
    + exists items. cbn [snd]. rewrite written_during_emit. split; [done|].
      intros x Hx. by eapply plan_between.
  - exists []. rewrite written_during_refl. split; [done|]. by intros x ?%elem_of_nil.
Qed.

Lemma move_servo_writes_extend (sv : Servo) (step : Z) (sleep : Q) (want : Z) (w : World) :
  writes (control.move_servo sv step sleep want w).2
  = writes w ++ written_during w (control.move_servo sv step sleep want w).2.
Proof.
  rewrite move_servo_run. destruct (plan _ _ _) as [items|]; simpl.
  - unfold loop_result. destruct (Py.lt sleep 0); [destruct items|]; cbn [snd];
      rewrite ?written_during_refl, ?written_during_emit, ?writes_emit, ?app_nil_r; done.
  - by rewrite written_during_refl, app_nil_r.
Qed.

Lemma move_servo_state (sv : Servo) (step : Z) (sleep : Q) (want : Z) (w : World) :
  state (control.move_servo sv step sleep want w).2 = state w.
Proof.
  rewrite move_servo_run. destruct (plan _ _ _) as [items|]; [|done].
  unfold loop_result. destruct (Py.lt sleep 0); [destruct items|]; cbn [snd];
    rewrite ?state_emit; done.
Qed.

Lemma move_axis_world (sv : Servo) (i : Z) (relative : bool) (w : World) :
  (move_axis sv i relative w).2
  = (control.move_servo sv (ServoPosition.step (limits sv (state w)))
                        (ServoPosition.sleep (limits sv (state w)))
                        (target sv i relative w) w).2.
Proof. rewrite move_axis_run. by destruct (control.move_servo _ _ _ _ _) as [[]]. Qed.

(** ** Clamping *)

(** C1. With [min <= max] for the axis, any value [pan] or [tilt] returns
    lies in [[min, max]]; and with a non-zero step and a non-negative delay
    the call does return, with the clamped target as its value. *)
Theorem move_axis_result_within_limits
    (sv : Servo) (i : Z) (relative : bool) (w : World) :
  ServoPosition.min (limits sv (state w)) <= ServoPosition.max (limits sv (state w)) →
  (∀ v w', move_axis sv i relative w = (Ret v, w') →
     v = target sv i relative w ∧
     ServoPosition.min (limits sv (state w)) <= v <= ServoPosition.max (limits sv (state w)))
  ∧ (ServoPosition.step (limits sv (state w)) ≠ 0 →
     Py.lt (ServoPosition.sleep (limits sv (state w))) 0 = false →
     ∃ w', move_axis sv i relative w = (Ret (target sv i relative w), w')).
Proof.
  intros Hlim. split.
  - intros v w'. rewrite move_axis_run.
    destruct (control.move_servo _ _ _ _ _) as [[[]|e] w'']; [|done].
    intros [= <- <-]. split; [done|]. by apply clamp_within.
  - intros Hstep Hsleep. rewrite move_axis_run, move_servo_run.
    unfold plan, Py.range, loop_result. rewrite Hsleep.
    destruct (Z.eqb_spec (ServoPosition.step (limits sv (state w)) *
                          direction (angle_of sv w) (target sv i relative w)) 0)
      as [Hz|_]; [|by eexists].
    destruct (direction_cases (angle_of sv w) (target sv i relative w)) as [Hd|Hd];
      rewrite Hd in Hz; lia.
Qed.

Lemma move_axis_result_within_limits_witness :
  (∀ v w', move_axis servo_pan 300 false example_world = (Ret v, w') →
     v = target servo_pan 300 false example_world ∧ 0 <= v <= 270)
  ∧ (2 ≠ 0 → Py.lt 0 0 = false →
     ∃ w', move_axis servo_pan 300 false example_world = (Ret 270, w')).
Proof.
  apply (move_axis_result_within_limits servo_pan 300 false example_world).
  simpl. lia.
Defined.

(** ** The last angle of a move *)

Lemma range_last_up (lo hi step : Z) (xs : list Z) :
  0 < step → lo < hi → Py.range lo hi step = Some xs →
  last xs = Some (lo + (hi - 1 - lo) / step * step).
Proof.
  intros Hs Hlt. unfold Py.range, Py.range_len.
  destruct (Z.eqb_spec step 0); [lia|].
  destruct (Z.ltb_spec 0 step); [|lia]. destruct (Z.ltb_spec lo hi); [|lia].
  simpl. intros [= <-].
  assert (0 <= (hi - 1 - lo) / step) as Hq by (apply Z.div_pos; lia).
  replace (Z.to_nat (1 + (hi - 1 - lo) / step))
    with (S (Z.to_nat ((hi - 1 - lo) / step))) by lia.
  rewrite seq_S, map_app. cbn [map List.map]. rewrite last_snoc. f_equal. lia.
Qed.

Lemma range_last_down (lo hi step : Z) (xs : list Z) :
  step < 0 → hi < lo → Py.range lo hi step = Some xs →
  last xs = Some (lo + (lo - 1 - hi) / (- step) * step).
Proof.
  intros Hs Hlt. unfold Py.range, Py.range_len.
  destruct (Z.eqb_spec step 0); [lia|].
  destruct (Z.ltb_spec 0 step); [lia|]. destruct (Z.ltb_spec step 0); [|lia].
  destruct (Z.ltb_spec hi lo); [|lia].
  simpl. intros [= <-].
  assert (0 <= (lo - 1 - hi) / (- step)) as Hq by (apply Z.div_pos; lia).
  replace (Z.to_nat (1 + (lo - 1 - hi) / (- step)))
    with (S (Z.to_nat ((lo - 1 - hi) / (- step)))) by lia.
  rewrite seq_S, map_app. cbn [map List.map]. rewrite last_snoc. f_equal. lia.
Qed.

(** An upward move with a positive step ends on the largest angle
    [start + k * step] that does not pass the target. *)
Lemma plan_last_up (a : Q) (step want : Z) (items : list Z) :
  0 < step → Py.lt a (inject_Z want) = true → start_angle a <= want →
  plan a step want = Some items →
  last items = Some (start_angle a + (want - start_angle a) / step * step).
Proof.
  intros Hs Hd Hle. unfold plan, direction. rewrite Hd, Z.mul_1_r. intros Hp.
  assert (start_angle a < want + 1) as Hlt by lia.
  rewrite (range_last_up _ _ _ _ Hs Hlt Hp). do 4 f_equal. lia.
Qed.

(** A downward move with a positive step ends on the smallest angle
    [start - k * step] that does not pass the target. *)
Lemma plan_last_down (a : Q) (step want : Z) (items : list Z) :
  0 < step → Py.lt a (inject_Z want) = false → want <= start_angle a →
  plan a step want = Some items →
  last items = Some (start_angle a - (start_angle a - want) / step * step).
Proof.
  intros Hs Hd Hle. unfold plan, direction. rewrite Hd. intros Hp.
  assert (step * -1 < 0) as Hneg by lia.
  assert (want + -1 < start_angle a) as Hlt by lia.
  rewrite (range_last_down _ _ _ _ Hneg Hlt Hp).
  replace (- (step * -1)) with step by lia.
  replace (start_angle a - 1 - (want + -1)) with (start_angle a - want) by lia.
  f_equal. lia.
Qed.

(** The loop ends on the target exactly when the step divides the distance. *)
Lemma plan_reaches_target_up (a : Q) (step want : Z) (items : list Z) :
  0 < step → Py.lt a (inject_Z want) = true → start_angle a <= want →
  plan a step want = Some items →
  last items = Some want ↔ (want - start_angle a) mod step = 0.
Proof.
  intros Hs Hd Hle Hp. rewrite (plan_last_up _ _ _ _ Hs Hd Hle Hp).
  pose proof (Z.div_mod (want - start_angle a) step ltac:(lia)).
  split; [intros [= ?]|intros ?; f_equal]; lia.
Qed.

(** ** Stepping *)

(** C2. At the spec's own example (pan limits 0..270, step 2, no delay,
    current angle 10) [pan(15, relative=False)] returns 15 but writes
    10, 12, 14 and stops: the last angle written is 14, not the target. *)
Theorem pan_example_stops_short :
  (control.pan 15 false example_world).1 = Ret 15
  ∧ written_during example_world (control.pan 15 false example_world).2
    = [(servo_pan, 10); (servo_pan, 12); (servo_pan, 14)]
  ∧ last (written_during example_world (control.pan 15 false example_world).2)
    ≠ Some (servo_pan, 15).
Proof. split; [|split]; [vm_compute; reflexivity ..|]. vm_compute. discriminate. Qed.

(** ** Angles written during a move *)

(** C3, as stated, fails: from a start below the new minimum the loop
    writes the angles on the way up, the first of them 10 < 50. *)
Lemma pan_writes_outside_limits :
  ¬ Forall (λ e : Servo * Z,
              ServoPosition.min (limits servo_pan (state tightened_world)) <= e.2
              <= ServoPosition.max (limits servo_pan (state tightened_world)))
           (written_during tightened_world (control.pan 60 false tightened_world).2).
Proof.
  assert (∃ rest, written_during tightened_world (control.pan 60 false tightened_world).2
                  = (servo_pan, 10) :: rest) as [rest ->]
    by (eexists; vm_compute; reflexivity).
  intros H%Forall_inv. simpl in H. lia.
Qed.

(** C3, amended. Every angle [pan] or [tilt] writes goes to its own servo
    and lies between the first angle of the loop, [max(0, current)], and
    the clamped target; so with [min <= max] and that first angle inside
    the limits, every angle written is inside the limits. This holds
    whether the call returns or raises. *)
Theorem move_axis_writes_between
    (sv : Servo) (i : Z) (relative : bool) (w : World) (sv' : Servo) (x : Z) :
  (sv', x) ∈ written_during w (move_axis sv i relative w).2 →
  sv' = sv
  ∧ Z.min (start_angle (angle_of sv w)) (target sv i relative w) <= x
    <= Z.max (start_angle (angle_of sv w)) (target sv i relative w)
  ∧ (ServoPosition.min (limits sv (state w)) <= ServoPosition.max (limits sv (state w)) →
     ServoPosition.min (limits sv (state w)) <= start_angle (angle_of sv w)
       <= ServoPosition.max (limits sv (state w)) →
     ServoPosition.min (limits sv (state w)) <= x
       <= ServoPosition.max (limits sv (state w))).
Proof.
  rewrite move_axis_world.
  destruct (move_servo_written sv (ServoPosition.step (limits sv (state w)))
              (ServoPosition.sleep (limits sv (state w))) (target sv i relative w) w)
    as (items & -> & Hitems).
  intros (y & [= -> ->] & Hy)%list_elem_of_fmap.
  specialize (Hitems _ Hy). split; [done|]. split; [done|].
  intros Hlim Hstart. pose proof (clamp_within
    (i + (if relative then Py.round (angle_of sv w) else 0)) _ _ Hlim) as Hc.
  fold (target sv i relative w) in Hc. lia.
Qed.

Lemma move_axis_writes_between_witness :
  servo_pan = servo_pan
  ∧ Z.min (start_angle (angle_of servo_pan example_world))
          (target servo_pan 15 false example_world) <= 12
    <= Z.max (start_angle (angle_of servo_pan example_world))
             (target servo_pan 15 false example_world)
  ∧ (0 <= 270 → 0 <= start_angle (angle_of servo_pan example_world) <= 270 →
     0 <= 12 <= 270).
Proof.
  apply (move_axis_writes_between servo_pan 15 false example_world servo_pan 12).
  vm_compute. apply list_elem_of_further, list_elem_of_here.
Defined.

(** The trace only grows during a move. *)
Lemma move_axis_writes_extend (sv : Servo) (i : Z) (relative : bool) (w : World) :
  writes (move_axis sv i relative w).2
  = writes w ++ written_during w (move_axis sv i relative w).2.
Proof. rewrite move_axis_world. apply move_servo_writes_extend. Qed.

(** ** Missing location *)

(** C5. For a name that is not in the registry [move_location] returns the
    not-found status and leaves the whole world as it was: no angle is
    assigned to either servo and no state is changed. *)
Theorem move_location_missing (name : string) (w : World) :
  State.locations (state w) !! name = None →
  control.move_location name w = (Ret (Some [(Str "status", JStr "not found")]), w).
Proof. intros H. unfold control.move_location, mbind, M_bind. simpl. by rewrite H. Qed.

Lemma move_location_missing_witness :
  control.move_location "nonexistent" example_world
  = (Ret (Some [(Str "status", JStr "not found")]), example_world).
Proof. apply (move_location_missing "nonexistent" example_world). reflexivity. Defined.

(** ** Reading the position over HTTP *)

(** A dict whose keys are all strings is delivered as it is. *)
Lemma response_body_string_keys (body : list (string * json)) (w : World) :
  response_body (map (λ e : string * json, (Str e.1, e.2)) body) w = (Ret body, w).
Proof.
  induction body as [|[s v] body IH]; [done|].
  simpl. unfold mbind, M_bind in *. simpl. by rewrite IH.
Qed.

(** The nudge routes do deliver their handler's dict. *)
Lemma route_move_left_delivers (v : Z) (w w' : World) :
  control.move_left w = (Ret v, w') →
  route api.api_move_left w = (Ret [("status", JStr "ok"); ("pan", JInt v)], w').
Proof.
  intros Hrun. unfold route, api.api_move_left, mbind, M_bind. by rewrite Hrun.
Qed.



(** ** Handlers and the state *)

(** Dropping or replacing a computation's value keeps its final world. *)
Lemma bind_ret_world {A B} (c : M A) (f : A → B) (w : World) :
  ((a ← c; mret (f a)) w).2 = (c w).2.
Proof. unfold mbind, M_bind. by destruct (c w) as [[]]. Qed.

Lemma state_move_axis (sv : Servo) (i : Z) (relative : bool) (w : World) :
  state (move_axis sv i relative w).2 = state w.
Proof. rewrite move_axis_world. apply move_servo_state. Qed.

(** [move_location] on a known name: the pan move, then the tilt move. *)
Lemma move_location_run (name : string) (loc : Location.t) (w : World) :
  State.locations (state w) !! name = Some loc →
  control.move_location name w =
  match control.move_servo servo_pan
          (ServoPosition.step (limits servo_pan (state w)))
          (ServoPosition.sleep (limits servo_pan (state w)))
          (control.clamp (Location.pan loc)
             (ServoPosition.min (limits servo_pan (state w)))
             (ServoPosition.max (limits servo_pan (state w)))) w with
  | (Ret _, w1) =>
      match control.move_servo servo_tilt
              (ServoPosition.step (limits servo_tilt (state w)))
              (ServoPosition.sleep (limits servo_tilt (state w)))
              (control.clamp (Location.tilt loc)
                 (ServoPosition.min (limits servo_tilt (state w)))
                 (ServoPosition.max (limits servo_tilt (state w)))) w1 with
      | (Ret _, w2) => (Ret None, w2)
      | (Raise e, w2) => (Raise e, w2)
      end
  | (Raise e, w1) => (Raise e, w1)
  end.
Proof.
  intros Hloc. unfold control.move_location. unfold mbind at 1, M_bind at 1.
  cbn [get_state]. rewrite Hloc. unfold mbind at 1, M_bind at 1. simpl limits.
  pose proof (move_servo_state servo_pan
    (ServoPosition.step (Position.pan (State.position (state w))))
    (ServoPosition.sleep (Position.pan (State.position (state w))))
    (control.clamp (Location.pan loc)
       (ServoPosition.min (Position.pan (State.position (state w))))
       (ServoPosition.max (Position.pan (State.position (state w))))) w) as Hst.
  destruct (control.move_servo servo_pan _ _ _ w) as [[[]|e] w1]; [|done].
  simpl in Hst. unfold mbind, M_bind, get_state. rewrite Hst.
  by destruct (control.move_servo servo_tilt _ _ _ w1) as [[[]|e] w2].
Qed.

Lemma state_move_location (name : string) (w : World) :
  state (control.move_location name w).2 = state w.
Proof.
  destruct (State.locations (state w) !! name) as [loc|] eqn:Hloc.
  - rewrite (move_location_run _ _ _ Hloc).
    pose proof (move_servo_state servo_pan
      (ServoPosition.step (limits servo_pan (state w)))
      (ServoPosition.sleep (limits servo_pan (state w)))
      (control.clamp (Location.pan loc)
         (ServoPosition.min (limits servo_pan (state w)))
         (ServoPosition.max (limits servo_pan (state w)))) w) as H1.
    destruct (control.move_servo servo_pan _ _ _ w) as [[[]|e] w1]; [|done].
    simpl in H1.
    pose proof (move_servo_state servo_tilt
      (ServoPosition.step (limits servo_tilt (state w)))
      (ServoPosition.sleep (limits servo_tilt (state w)))
      (control.clamp (Location.tilt loc)
         (ServoPosition.min (limits servo_tilt (state w)))
         (ServoPosition.max (limits servo_tilt (state w)))) w1) as H2.
    destruct (control.move_servo servo_tilt _ _ _ w1) as [[[]|e] w2];
      simpl in *; congruence.
  - unfold control.move_location, mbind, M_bind. simpl. by rewrite Hloc.
Qed.

(** The registry after a request: only saving and deleting change it. *)
Lemma serve_locations (r : request) (w : World) :
  State.locations (state (serve r w).2) =
  match r with
  | POST_locations name =>
      <[name := Location.mk (Py.round (pan_angle w)) (Py.round (tilt_angle w))]>
        (State.locations (state w))
  | DELETE_locations name => delete name (State.locations (state w))
  | _ => State.locations (state w)
  end.
Proof.
  destruct r; unfold serve;
    try (rewrite (bind_ret_world _ (λ _, tt))); try reflexivity.
  - unfold api.api_move_location. rewrite (bind_ret_world _ (λ _, api.STATUS_GOOD)).
    by rewrite state_move_location.
  - unfold api.delete_location, mbind, M_bind. simpl.
    destruct (State.locations (state w) !! name) eqn:Hl; [done|].
    simpl. by rewrite delete_id.
  - unfold api.tilt_max. destruct (api.truthy_value value); reflexivity.
  - unfold api.tilt_min. destruct (api.truthy_value value); reflexivity.
  - unfold api.pan_max. destruct (api.truthy_value value); reflexivity.
  - unfold api.pan_min. destruct (api.truthy_value value); reflexivity.
  - unfold api.api_pan. rewrite (bind_ret_world _ (λ _, api.STATUS_GOOD)).
    by rewrite (state_move_axis servo_pan).
  - unfold api.api_tilt. rewrite (bind_ret_world _ (λ _, api.STATUS_GOOD)).
    by rewrite (state_move_axis servo_tilt).
  - unfold api.api_move_down, control.move_down.
    rewrite (bind_ret_world _ (λ v, api.STATUS_GOOD ++ [(Str "tilt", JInt v)])).
    by rewrite (state_move_axis servo_tilt).
  - unfold api.api_move_up, control.move_up.
    rewrite (bind_ret_world _ (λ v, api.STATUS_GOOD ++ [(Str "tilt", JInt v)])).
    by rewrite (state_move_axis servo_tilt).
  - unfold api.api_move_left, control.move_left.
    rewrite (bind_ret_world _ (λ v, api.STATUS_GOOD ++ [(Str "pan", JInt v)])).
    by rewrite (state_move_axis servo_pan).
  - unfold api.api_move_right, control.move_right.
    rewrite (bind_ret_world _ (λ v, api.STATUS_GOOD ++ [(Str "pan", JInt v)])).
    by rewrite (state_move_axis servo_pan).
  - unfold mqtt.on_message, control.move_up, control.move_down,
      control.move_left, control.move_right.
    repeat (match goal with |- context [if ?b then _ else _] => destruct b end);
      try reflexivity;
      rewrite (bind_ret_world _ (λ _, tt));
      first [ by rewrite state_move_location
            | by rewrite (state_move_axis servo_tilt)
            | by rewrite (state_move_axis servo_pan) ].
Qed.

(** ** Runs of requests *)

Lemma run_requests_snoc (rs : list request) (r : request) (w : World) :
  run_requests (rs ++ [r]) w = (serve r (run_requests rs w)).2.
Proof. unfold run_requests. by rewrite fold_left_app. Qed.

(** A registry entry survives every request that neither saves nor deletes
    that name. *)
Lemma serve_keeps_entry (name : string) (r : request) (w : World) :
  r ≠ POST_locations name → r ≠ DELETE_locations name →
  State.locations (state (serve r w).2) !! name = State.locations (state w) !! name.
Proof.
  intros Hpost Hdel. rewrite serve_locations. destruct r; try done.
  - apply lookup_insert_ne. congruence.
  - apply lookup_delete_ne. congruence.
Qed.

Lemma run_requests_keeps_entry (name : string) (rs : list request) (w : World) :
  Forall (λ r, r ≠ POST_locations name ∧ r ≠ DELETE_locations name) rs →
  State.locations (state (run_requests rs w)) !! name = State.locations (state w) !! name.
Proof.
  induction rs as [|r rs IH] using rev_ind; [done|].
  intros [Hrs [[Hp Hd] _]%Forall_cons]%Forall_app.
  rewrite run_requests_snoc, serve_keeps_entry by done. by apply IH.
Qed.

(** ** The home location *)

(** C6, as stated, fails: deleting ["home"] succeeds and removes it. *)
Lemma delete_home_removes_home :
  is_Some (State.locations (state (initial_world 2 0 0 0)) !! "home")
  ∧ (api.delete_location "home" (initial_world 2 0 0 0)).1 = Ret api.STATUS_GOOD
  ∧ State.locations (state (api.delete_location "home" (initial_world 2 0 0 0)).2)
    !! "home" = None.
Proof. split; [by eexists|]. split; reflexivity. Qed.

(** C6, amended. ["home"] is in the default state, and it is still there
    after any sequence of requests in which no request deletes ["home"]. *)
Theorem home_kept_unless_deleted
    (step : Z) (sleep pan tilt : Q) (rs : list request) :
  DELETE_locations "home" ∉ rs →
  is_Some (State.locations (state (run_requests rs (initial_world step sleep pan tilt)))
           !! "home").
Proof.
  induction rs as [|r rs IH] using rev_ind; [by eexists|].
  intros Hnot. rewrite run_requests_snoc, serve_locations.
  assert (is_Some (State.locations
    (state (run_requests rs (initial_world step sleep pan tilt))) !! "home")) as Hin.
  { apply IH. intros Hin. apply Hnot, elem_of_app. by left. }
  destruct r; try done.
  - by apply lookup_insert_is_Some'; right.
  - rewrite lookup_delete_ne; [done|]. intros ->. apply Hnot, elem_of_app. right. left.
Qed.

Lemma home_kept_unless_deleted_witness :
  is_Some (State.locations
    (state (run_requests [POST_locations "desk"; PUT_pan_min (Some 5); DELETE_locations "desk"]
                         (initial_world 2 0 0 0))) !! "home").
Proof.
  apply (home_kept_unless_deleted 2 0 0 0
           [POST_locations "desk"; PUT_pan_min (Some 5); DELETE_locations "desk"]).
  intros H. repeat (apply elem_of_cons in H as [H|H]; [discriminate|]).
  by apply elem_of_nil in H.
Defined.

(** ** Setting the limits *)

(** What the four handlers store: the value that passes the truthiness
    guard, otherwise the axis's rounded current angle. *)
Lemma set_max_stores (sv : Servo) (value : option Z) (w : World) :
  (set_max sv value w).1 = Ret api.STATUS_GOOD
  ∧ ServoPosition.max (limits sv (state (set_max sv value w).2))
    = match api.truthy_value value with
      | Some v => v
      | None => Py.round (angle_of sv w)
      end.
Proof. destruct sv; simpl; [unfold api.pan_max|unfold api.tilt_max];
  destruct (api.truthy_value value); split; reflexivity. Qed.

Lemma set_min_stores (sv : Servo) (value : option Z) (w : World) :
  (set_min sv value w).1 = Ret api.STATUS_GOOD
  ∧ ServoPosition.min (limits sv (state (set_min sv value w).2))
    = match api.truthy_value value with
      | Some v => v
      | None => Py.round (angle_of sv w)
      end.
Proof. destruct sv; simpl; [unfold api.pan_min|unfold api.tilt_min];
  destruct (api.truthy_value value); split; reflexivity. Qed.

(** A non-zero value is stored as given; an absent value captures the
    current angle. *)
Lemma set_limit_nonzero (sv : Servo) (v : Z) (w : World) :
  v ≠ 0 →
  ServoPosition.max (limits sv (state (set_max sv (Some v) w).2)) = v
  ∧ ServoPosition.min (limits sv (state (set_min sv (Some v) w).2)) = v.
Proof.
  intros Hv. rewrite (proj2 (set_max_stores _ _ _)), (proj2 (set_min_stores _ _ _)).
  simpl. by destruct (Z.eqb_spec v 0).
Qed.

Lemma set_limit_absent (sv : Servo) (w : World) :
  ServoPosition.max (limits sv (state (set_max sv None w).2)) = Py.round (angle_of sv w)
  ∧ ServoPosition.min (limits sv (state (set_min sv None w).2)) = Py.round (angle_of sv w).
Proof. by rewrite (proj2 (set_max_stores _ _ _)), (proj2 (set_min_stores _ _ _)). Qed.

(** A supplied zero is treated as absent, on every axis and in every world. *)
Lemma set_limit_zero (sv : Servo) (w : World) :
  ServoPosition.max (limits sv (state (set_max sv (Some 0) w).2)) = Py.round (angle_of sv w)
  ∧ ServoPosition.min (limits sv (state (set_min sv (Some 0) w).2)) = Py.round (angle_of sv w).
Proof. by rewrite (proj2 (set_max_stores _ _ _)), (proj2 (set_min_stores _ _ _)). Qed.

(** C7. With the pan servo at 37, [pan_min] called with the value 0 answers
    ok and stores 37, the current angle, as the pan minimum; the value
    supplied, 0, is not stored. *)
Theorem pan_min_zero_stores_current_angle :
  (api.pan_min (Some 0) world_at_37).1 = Ret api.STATUS_GOOD
  ∧ ServoPosition.min (Position.pan (State.position
      (state (api.pan_min (Some 0) world_at_37).2))) = 37
  ∧ ServoPosition.min (Position.pan (State.position
      (state (api.pan_min (Some 0) world_at_37).2))) ≠ 0.
Proof. split; [reflexivity|]. split; [reflexivity|]. vm_compute. discriminate. Qed.

(** ** Moves that arrive *)

Lemma plan_some (a : Q) (step want : Z) :
  step ≠ 0 → ∃ items, plan a step want = Some items.
Proof.
  intros Hs. unfold plan, Py.range.
  destruct (Z.eqb_spec (step * direction a want) 0) as [Hz|_]; [|by eexists].
  destruct (direction_cases a want) as [Hd|Hd]; rewrite Hd in Hz; lia.
Qed.

Lemma start_angle_inject_Z (a : Z) : 0 <= a → start_angle (inject_Z a) = a.
Proof. intros Ha. unfold start_angle. rewrite round_inject_Z. lia. Qed.

(** From a non-negative whole angle, with a positive step that divides the
    distance and a non-negative delay, [move_servo] returns and the servo
    reports the wanted angle; the other servo and the state are untouched. *)
Lemma move_servo_arrives (sv : Servo) (step : Z) (sleep : Q) (want a : Z) (w : World) :
  angle_of sv w = inject_Z a → 0 <= a → 0 < step → Py.lt sleep 0 = false →
  (want - a) mod step = 0 →
  ∃ w', control.move_servo sv step sleep want w = (Ret tt, w')
        ∧ angle_of sv w' = inject_Z want
        ∧ state w' = state w
        ∧ ∀ sv', sv ≠ sv' → angle_of sv' w' = angle_of sv' w.
Proof.
  intros Ha Hpos Hs Hsleep Hmod.
  assert (step ≠ 0) as Hstep by lia.
  destruct (plan_some (inject_Z a) step want Hstep) as [items Hp].
  rewrite move_servo_run, Ha, Hp. unfold loop_result. rewrite Hsleep.
  eexists. split; [done|]. split; [|split].
  - rewrite angle_emit, Ha.
    apply Z.mod_divide in Hmod as [q Hq]; [|lia].
    pose proof (start_angle_inject_Z a Hpos) as Hstart.
    destruct (Py.lt (inject_Z a) (inject_Z want)) eqn:Hd.
    + assert (start_angle (inject_Z a) <= want) as Hle
        by (rewrite lt_inject_Z in Hd; apply Z.ltb_lt in Hd; lia).
      rewrite (plan_last_up _ _ _ _ Hs Hd Hle Hp), Hstart. f_equal.
      rewrite Hq, Z.div_mul by lia. lia.
    + assert (want <= start_angle (inject_Z a)) as Hle
        by (rewrite lt_inject_Z in Hd; apply Z.ltb_ge in Hd; lia).
      rewrite (plan_last_down _ _ _ _ Hs Hd Hle Hp), Hstart. f_equal.
      replace (a - want) with ((- q) * step) by lia.
      rewrite Z.div_mul by lia. lia.
  - apply state_emit.
  - intros sv' Hne. by apply angle_emit_other.
Qed.

(** ** Saved locations *)

Lemma written_during_trans (w w1 w2 : World) :
  writes w1 = writes w ++ written_during w w1 →
  writes w2 = writes w1 ++ written_during w1 w2 →
  written_during w w2 = written_during w w1 ++ written_during w1 w2.
Proof.
  intros H1 H2. unfold written_during at 1. rewrite H2, H1 at 1.
  by rewrite <- app_assoc, drop_app_length.
Qed.

(** [save_location] stores the two rounded angles as they are, writes the
    state file and sets the re-registration event; no servo is touched. *)
Lemma save_location_run (name : string) (w : World) :
  api.save_location name w =
  (Ret api.STATUS_GOOD,
   let s := State.mk (State.position (state w))
              (<[name := Location.mk (Py.round (pan_angle w)) (Py.round (tilt_angle w))]>
                 (State.locations (state w))) in
   mkWorld s (pan_angle w) (tilt_angle w) (writes w) (Some s) true).
Proof. reflexivity. Qed.

(** What was saved under [name] is what [move_location] finds later, and
    it clamps it against the limits of the world it runs in: after a save
    in [w] and any requests that neither save nor delete [name],
    [move_location] moves pan and then tilt towards the saved angles
    clamped by the limits then in force. *)
Lemma saved_location_used_at_move (name : string) (rs : list request) (w : World) :
  Forall (λ r, r ≠ POST_locations name ∧ r ≠ DELETE_locations name) rs →
  let w' := run_requests rs (api.save_location name w).2 in
  State.locations (state w') !! name
    = Some (Location.mk (Py.round (pan_angle w)) (Py.round (tilt_angle w)))
  ∧ control.move_location name w' =
    match control.move_servo servo_pan
            (ServoPosition.step (limits servo_pan (state w')))
            (ServoPosition.sleep (limits servo_pan (state w')))
            (control.clamp (Py.round (pan_angle w))
               (ServoPosition.min (limits servo_pan (state w')))
               (ServoPosition.max (limits servo_pan (state w')))) w' with
    | (Ret _, w1) =>
        match control.move_servo servo_tilt
                (ServoPosition.step (limits servo_tilt (state w')))
                (ServoPosition.sleep (limits servo_tilt (state w')))
                (control.clamp (Py.round (tilt_angle w))
                   (ServoPosition.min (limits servo_tilt (state w')))
                   (ServoPosition.max (limits servo_tilt (state w')))) w1 with
        | (Ret _, w2) => (Ret None, w2)
        | (Raise e, w2) => (Raise e, w2)
        end
    | (Raise e, w1) => (Raise e, w1)
    end.
Proof.
  intros Hrs w'.
  assert (State.locations (state w') !! name
          = Some (Location.mk (Py.round (pan_angle w)) (Py.round (tilt_angle w)))) as Hl.
  { unfold w'. rewrite run_requests_keeps_entry by done.
    rewrite save_location_run. cbn [snd state State.locations]. apply lookup_insert_eq. }
  split; [done|]. by rewrite (move_location_run _ _ _ Hl).
Qed.

(** All the pan writes of [move_location] come before its tilt writes. *)
Lemma move_location_pan_then_tilt (name : string) (w : World) :
  ∃ ps ts, written_during w (control.move_location name w).2
           = map (pair servo_pan) ps ++ map (pair servo_tilt) ts.
Proof.
  destruct (State.locations (state w) !! name) as [loc|] eqn:Hloc.
  - rewrite (move_location_run _ _ _ Hloc).
    pose proof (move_servo_written servo_pan
      (ServoPosition.step (limits servo_pan (state w)))
      (ServoPosition.sleep (limits servo_pan (state w)))
      (control.clamp (Location.pan loc)
         (ServoPosition.min (limits servo_pan (state w)))
         (ServoPosition.max (limits servo_pan (state w)))) w) as (ps & Hps & _).
    pose proof (move_servo_writes_extend servo_pan
      (ServoPosition.step (limits servo_pan (state w)))
      (ServoPosition.sleep (limits servo_pan (state w)))
      (control.clamp (Location.pan loc)
         (ServoPosition.min (limits servo_pan (state w)))
         (ServoPosition.max (limits servo_pan (state w)))) w) as Hext.
    destruct (control.move_servo servo_pan _ _ _ w) as [[[]|e] w1]; cbn [snd] in *.
    + pose proof (move_servo_written servo_tilt
        (ServoPosition.step (limits servo_tilt (state w)))
        (ServoPosition.sleep (limits servo_tilt (state w)))
        (control.clamp (Location.tilt loc)
           (ServoPosition.min (limits servo_tilt (state w)))
           (ServoPosition.max (limits servo_tilt (state w)))) w1) as (ts & Hts & _).
      pose proof (move_servo_writes_extend servo_tilt
        (ServoPosition.step (limits servo_tilt (state w)))
        (ServoPosition.sleep (limits servo_tilt (state w)))
        (control.clamp (Location.tilt loc)
           (ServoPosition.min (limits servo_tilt (state w)))
           (ServoPosition.max (limits servo_tilt (state w)))) w1) as Hext'.
      exists ps, ts.
      destruct (control.move_servo servo_tilt _ _ _ w1) as [[[]|e] w2]; cbn [snd] in *;
        by rewrite (written_during_trans w w1 w2 Hext Hext'), Hps, Hts.
    + exists ps, []. by rewrite Hps, app_nil_r.
  - exists [], []. unfold control.move_location, mbind, M_bind. simpl. rewrite Hloc.
    apply written_during_refl.
Qed.

(** Where both steps divide the distances the two servos do arrive: from
    whole non-negative angles, with positive steps and non-negative delays,
    [move_location] returns and leaves pan and tilt on the stored angles
    clamped by the current limits. *)
Lemma move_location_arrives (name : string) (loc : Location.t) (a b : Z) (w : World) :
  State.locations (state w) !! name = Some loc →
  pan_angle w = inject_Z a → tilt_angle w = inject_Z b → 0 <= a → 0 <= b →
  let lp := limits servo_pan (state w) in
  let lt := limits servo_tilt (state w) in
  let want_pan := control.clamp (Location.pan loc) (ServoPosition.min lp) (ServoPosition.max lp) in
  let want_tilt := control.clamp (Location.tilt loc) (ServoPosition.min lt) (ServoPosition.max lt) in
  0 < ServoPosition.step lp → 0 < ServoPosition.step lt →
  Py.lt (ServoPosition.sleep lp) 0 = false → Py.lt (ServoPosition.sleep lt) 0 = false →
  (want_pan - a) mod ServoPosition.step lp = 0 →
  (want_tilt - b) mod ServoPosition.step lt = 0 →
  ∃ w', control.move_location name w = (Ret None, w')
        ∧ pan_angle w' = inject_Z want_pan
        ∧ tilt_angle w' = inject_Z want_tilt
        ∧ state w' = state w.
Proof.
  intros Hloc Ha Hb Ha0 Hb0 lp lt want_pan want_tilt Hsp Hst Hslp Hslt Hmp Hmt.
  rewrite (move_location_run _ _ _ Hloc). fold lp lt want_pan want_tilt.
  destruct (move_servo_arrives servo_pan (ServoPosition.step lp) (ServoPosition.sleep lp)
              want_pan a w Ha Ha0 Hsp Hslp Hmp) as (w1 & -> & Hp1 & Hs1 & Ho1).
  assert (angle_of servo_tilt w1 = inject_Z b) as Hb1 by (by rewrite Ho1).
  destruct (move_servo_arrives servo_tilt (ServoPosition.step lt) (ServoPosition.sleep lt)
              want_tilt b w1 Hb1 Hb0 Hst Hslt Hmt) as (w2 & -> & Hp2 & Hs2 & Ho2).
  exists w2. split; [done|]. split; [|split].
  - specialize (Ho2 servo_pan). simpl in Ho2, Hp1. by rewrite Ho2.
  - done.
  - congruence.
Qed.

(** C4. With step 2 and the pan servo at 10: a location is saved as
    (10, 20), unclamped; the pan minimum is then raised to 11; at the move
    the stored pan angle is clamped by the new limits, to 11, pan is
    written before tilt, and the call returns; but the only pan angle
    written is 10 and the pan servo still reports 10, not the clamped 11. *)
Theorem saved_location_not_reached :
  let w := run_requests [POST_locations "x"; PUT_pan_min (Some 11)] example_world in
  State.locations (state w) !! "x" = Some (Location.mk 10 20)
  ∧ control.clamp 10 (ServoPosition.min (limits servo_pan (state w)))
                     (ServoPosition.max (limits servo_pan (state w))) = 11
  ∧ (control.move_location "x" w).1 = Ret None
  ∧ written_during w (control.move_location "x" w).2 = [(servo_pan, 10); (servo_tilt, 20)]
  ∧ pan_angle (control.move_location "x" w).2 = inject_Z 10
  ∧ pan_angle (control.move_location "x" w).2 ≠ inject_Z 11.
Proof.
  cbv zeta. repeat split; try (vm_compute; reflexivity). vm_compute. discriminate.
Qed.

(** ** Relative nudges *)

(** With a positive step that divides 2 the nudges do undo each other:
    from a whole angle [a] with [0 <= a], [min <= a] and [a + 2 <= max], a
    nudge by +2 returns [a + 2] and the nudge by -2 after it returns [a]
    and leaves the servo on [a]. On pan these are [move_left] and
    [move_right], on tilt [move_down] and [move_up]. *)
Lemma nudge_round_trip (sv : Servo) (a : Z) (w : World) :
  angle_of sv w = inject_Z a → 0 <= a →
  ServoPosition.min (limits sv (state w)) <= a →
  a + 2 <= ServoPosition.max (limits sv (state w)) →
  0 < ServoPosition.step (limits sv (state w)) →
  2 mod ServoPosition.step (limits sv (state w)) = 0 →
  Py.lt (ServoPosition.sleep (limits sv (state w))) 0 = false →
  ∃ w1 w2, move_axis sv 2 true w = (Ret (a + 2), w1)
           ∧ move_axis sv (-2) true w1 = (Ret a, w2)
           ∧ angle_of sv w2 = inject_Z a.
Proof.
  intros Ha Ha0 Hmin Hmax Hstep Hdiv Hsleep.
  assert (target sv 2 true w = a + 2) as Ht1.
  { unfold target. rewrite Ha, round_inject_Z, clamp_inside; lia. }
  assert ((a + 2 - a) mod ServoPosition.step (limits sv (state w)) = 0) as Hm1
    by (by replace (a + 2 - a) with 2 by lia).
  destruct (move_servo_arrives sv _ _ (a + 2) a w Ha Ha0 Hstep Hsleep Hm1)
    as (w1 & Hrun1 & Hang1 & Hst1 & _).
  assert (target sv (-2) true w1 = a) as Ht2.
  { unfold target. rewrite Hang1, round_inject_Z, Hst1, clamp_inside; lia. }
  assert ((a - (a + 2)) mod ServoPosition.step (limits sv (state w)) = 0) as Hm2.
  { replace (a - (a + 2)) with (- (2)) by lia.
    apply Z.mod_divide; [lia|]. apply Z.divide_opp_r, Z.mod_divide; [lia|done]. }
  assert (0 <= a + 2) as Ha2 by lia.
  destruct (move_servo_arrives sv _ _ a (a + 2) w1 Hang1 Ha2 Hstep Hsleep Hm2)
    as (w2 & Hrun2 & Hang2 & _).
  exists w1, w2. rewrite !move_axis_run, Ht1, Hrun1, Hst1, Ht2, Hrun2. done.
Qed.

(** C8. With step 3 and the pan servo at 10, inside the limits 0..270:
    [move_left] returns 12 but writes only 10; [move_right] after it
    returns 8, not the original 10. *)
Theorem nudges_do_not_round_trip :
  (control.move_left step3_world).1 = Ret 12
  ∧ written_during step3_world (control.move_left step3_world).2 = [(servo_pan, 10)]
  ∧ (control.move_right (control.move_left step3_world).2).1 = Ret 8
  ∧ (control.move_right (control.move_left step3_world).2).1 ≠ Ret 10.
Proof. repeat split; try (vm_compute; reflexivity). vm_compute. discriminate. Qed.

(** ** Further properties of the motion engine *)

Lemma range_items (lo hi step : Z) (xs : list Z) :
  Py.range lo hi step = Some xs →
  xs = map (λ k : nat, lo + Z.of_nat k * step)
           (seq 0 (Z.to_nat (Py.range_len lo hi step))).
Proof. unfold Py.range. destruct (step =? 0); [done|]. by intros [= <-]. Qed.

Lemma ha_reregister_event_emit (sv : Servo) (items : list Z) (w : World) :
  ha_reregister_event (emit sv items w) = ha_reregister_event w.
Proof.
  revert w. induction items as [|i items IH]; intros w; [done|].
  rewrite emit_cons, IH. by destruct sv.
Qed.

(** What a move leaves alone: the state, the state file, the event flag
    and the other servo. *)
Lemma move_servo_frame (sv : Servo) (step : Z) (sleep : Q) (want : Z) (w : World) :
  let w' := (control.move_servo sv step sleep want w).2 in
  state w' = state w ∧ state_file w' = state_file w
  ∧ ha_reregister_event w' = ha_reregister_event w
  ∧ ∀ sv', sv ≠ sv' → angle_of sv' w' = angle_of sv' w.
Proof.
  cbv zeta. rewrite move_servo_run. destruct (plan _ _ _) as [items|]; [|done].
  unfold loop_result. destruct (Py.lt sleep 0); [destruct items|]; cbn [snd];
    rewrite ?state_emit, ?state_file_emit, ?ha_reregister_event_emit;
    repeat split; try done; intros sv' Hne; by rewrite angle_emit_other.
Qed.

(** X8. A call of [pan] or [tilt] changes nothing but its own servo: the
    state, the state file, the re-registration flag and the other servo's
    angle are as before, whether the call returns or raises. *)
Theorem move_axis_frame (sv : Servo) (i : Z) (relative : bool) (w : World) :
  let w' := (move_axis sv i relative w).2 in
  state w' = state w ∧ state_file w' = state_file w
  ∧ ha_reregister_event w' = ha_reregister_event w
  ∧ ∀ sv', sv ≠ sv' → angle_of sv' w' = angle_of sv' w.
Proof. cbv zeta. rewrite move_axis_world. apply move_servo_frame. Qed.

(** X7. The angles a call of [pan] or [tilt] writes are an arithmetic
    progression: the k-th write is [max(0, current) + k * step * direction],
    so the first write repeats the start and consecutive writes are one
    step apart. *)
Theorem move_axis_writes_progression (sv : Servo) (i : Z) (relative : bool) (w : World) :
  ∃ n : nat,
    written_during w (move_axis sv i relative w).2
    = map (λ k : nat,
             (sv, start_angle (angle_of sv w)
                  + Z.of_nat k * (ServoPosition.step (limits sv (state w))
                                  * direction (angle_of sv w) (target sv i relative w))))
          (seq 0 n).
Proof.
  rewrite move_axis_world, move_servo_run.
  destruct (plan _ _ _) as [items|] eqn:Hp; cbn [snd].
  - apply range_items in Hp. unfold loop_result. destruct (Py.lt _ 0).
    + destruct items as [|x items]; cbn [snd].
      * exists 0%nat. by rewrite written_during_refl.
      * exists 1%nat. rewrite written_during_emit.
        destruct (Z.to_nat _) as [|n]; [done|]. simpl in Hp. by injection Hp as -> _.
    + eexists. cbn [snd]. rewrite written_during_emit, Hp, map_map. done.
  - exists 0%nat. by rewrite written_during_refl.
Qed.

Lemma move_axis_zero_step (sv : Servo) (i : Z) (relative : bool) (w : World) :
  ServoPosition.step (limits sv (state w)) = 0 →
  move_axis sv i relative w = (Raise ValueError, w).
Proof. intros Hs. rewrite move_axis_run, move_servo_run. unfold plan. by rewrite Hs. Qed.

(** X1. A step of 0 is accepted by [pan_step] and [tilt_step] (ok, stored and
    persisted); after it every [pan], respectively [tilt], call raises
    [ValueError] before any angle is written, and the world stays as it is. *)
Theorem zero_step_disables_axis (i : Z) (relative : bool) (w : World) :
  ((api.pan_step 0 w).1 = Ret api.STATUS_GOOD
   ∧ control.pan i relative (api.pan_step 0 w).2 = (Raise ValueError, (api.pan_step 0 w).2))
  ∧ ((api.tilt_step 0 w).1 = Ret api.STATUS_GOOD
     ∧ control.tilt i relative (api.tilt_step 0 w).2 = (Raise ValueError, (api.tilt_step 0 w).2)).
Proof.
  split; (split; [reflexivity|]).
  - by apply (move_axis_zero_step servo_pan).
  - by apply (move_axis_zero_step servo_tilt).
Qed.

Lemma plan_head (a : Q) (step want x : Z) (items : list Z) :
  plan a step want = Some (x :: items) → x = start_angle a.
Proof.
  intros Hp%range_items. destruct (Z.to_nat _); [done|].
  simpl in Hp. injection Hp as -> _. lia.
Qed.



Lemma range_empty (lo hi step : Z) :
  step ≠ 0 → Py.range_len lo hi step = 0 → Py.range lo hi step = Some [].
Proof.
  intros Hs Hl. unfold Py.range. destruct (Z.eqb_spec step 0); [done|]. by rewrite Hl.
Qed.

(** X3. With a negative step a move from a whole, non-negative angle writes
    nothing: [pan] and [tilt] return the clamped target and the world,
    the servo's angle included, is unchanged. *)
Theorem negative_step_never_moves
    (sv : Servo) (i : Z) (relative : bool) (a : Z) (w : World) :
  angle_of sv w = inject_Z a → 0 <= a →
  ServoPosition.step (limits sv (state w)) < 0 →
  move_axis sv i relative w = (Ret (target sv i relative w), w).
Proof.
  intros Ha Ha0 Hs. rewrite move_axis_run, move_servo_run, Ha.
  unfold plan, direction. rewrite (start_angle_inject_Z a Ha0), lt_inject_Z.
  rewrite range_empty.
  - unfold loop_result. by destruct (Py.lt _ 0).
  - destruct (a <? _); lia.
  - unfold Py.range_len.
    destruct (Z.ltb_spec a (target sv i relative w)).
    + destruct (Z.ltb_spec 0 (ServoPosition.step (limits sv (state w)) * 1)); [lia|].
      destruct (Z.ltb_spec (ServoPosition.step (limits sv (state w)) * 1) 0); [|lia].
      destruct (Z.ltb_spec (target sv i relative w + 1) a); [lia|done].
    + destruct (Z.ltb_spec 0 (ServoPosition.step (limits sv (state w)) * -1)); [|lia].
      destruct (Z.ltb_spec a (target sv i relative w + -1)); [lia|]. simpl.
      destruct (Z.ltb_spec (ServoPosition.step (limits sv (state w)) * -1) 0); [lia|done].
Qed.

Lemma negative_step_never_moves_witness :
  let w := mkWorld (state0 (-2) 0) (inject_Z 10) (inject_Z 20) [] None false in
  move_axis servo_pan 15 false w = (Ret (target servo_pan 15 false w), w).
Proof.
  apply (negative_step_never_moves servo_pan 15 false 10
           (mkWorld (state0 (-2) 0) (inject_Z 10) (inject_Z 20) [] None false)).
  - reflexivity.
  - lia.
  - simpl. lia.
Defined.

(** Rounding against a whole angle: the rounded reading is on the same
    side of a whole angle as the reading itself. *)
Lemma round_within_half (x : Q) :
  (inject_Z (Py.round x) - (1 # 2) <= x <= inject_Z (Py.round x) + (1 # 2))%Q.
Proof.
  pose proof (Qfloor_le x) as Hlo. pose proof (Qlt_floor x) as Hhi.
  rewrite inject_Z_plus in Hhi. change (inject_Z 1) with 1%Q in Hhi.
  unfold Py.round. destruct (Qcompare_spec (x - inject_Z (Qfloor x)) (1 # 2)) as [E|E|E].
  - destruct (Z.even _); rewrite ?inject_Z_plus; change (inject_Z 1) with 1%Q; split; lra.
  - split; lra.
  - rewrite inject_Z_plus. change (inject_Z 1) with 1%Q. split; lra.
Qed.

Lemma lt_round_le (x : Q) (z : Z) :
  Py.lt x (inject_Z z) = true → Py.round x <= z.
Proof.
  unfold Py.lt. intros Hlt%negb_true_iff.
  assert (x < inject_Z z)%Q as Hx.
  { apply Qnot_le_lt. intros Hle%Qle_bool_iff. congruence. }
  pose proof (round_within_half x) as [Hlo _].
  destruct (Z_le_gt_dec (Py.round x) z) as [|Hgt]; [done|].
  assert (z + 1 <= Py.round x) as Hz by lia.
  rewrite Zle_Qle, inject_Z_plus in Hz.
  change (inject_Z 1) with 1%Q in Hz. lra.
Qed.

Lemma not_lt_round_ge (x : Q) (z : Z) :
  Py.lt x (inject_Z z) = false → z <= Py.round x.
Proof.
  unfold Py.lt. intros Hle%negb_false_iff%Qle_bool_iff.
  pose proof (round_within_half x) as [_ Hhi].
  destruct (Z_le_gt_dec z (Py.round x)) as [|Hgt]; [done|].
  assert (Py.round x + 1 <= z) as Hz by lia.
  rewrite Zle_Qle, inject_Z_plus in Hz.
  change (inject_Z 1) with 1%Q in Hz. lra.
Qed.

(** A move whose target is the whole angle the reading rounds to: the loop
    has that one angle to write, whichever side of it the reading is on. *)
Lemma plan_to_reading (x : Q) (step : Z) :
  0 <= Py.round x → 0 < step → plan x step (Py.round x) = Some [Py.round x].
Proof.
  intros Ha Hs. unfold plan, start_angle. rewrite Z.max_r by done.
  generalize dependent (Py.round x). intros a Ha.
  unfold direction. destruct (Py.lt x (inject_Z a)); unfold Py.range, Py.range_len.
  - destruct (Z.eqb_spec (step * 1) 0); [lia|].
    destruct (Z.ltb_spec 0 (step * 1)); [|lia].
    destruct (Z.ltb_spec a (a + 1)); [|lia]. simpl.
    replace (a + 1 - 1 - a) with 0 by lia. rewrite Z.div_0_l by lia.
    simpl. do 2 f_equal. lia.
  - destruct (Z.eqb_spec (step * -1) 0); [lia|].
    destruct (Z.ltb_spec 0 (step * -1)); [lia|].
    destruct (Z.ltb_spec (step * -1) 0); [|lia].
    destruct (Z.ltb_spec (a + -1) a); [|lia]. simpl.
    replace (a - 1 - (a + -1)) with 0 by lia. rewrite Z.div_0_l by lia.
    simpl. do 2 f_equal. lia.
Qed.

Lemma move_axis_to_reading (sv : Servo) (i : Z) (relative : bool) (w : World) :
  0 <= Py.round (angle_of sv w) →
  target sv i relative w = Py.round (angle_of sv w) →
  0 < ServoPosition.step (limits sv (state w)) →
  Py.lt (ServoPosition.sleep (limits sv (state w))) 0 = false →
  ∃ w', move_axis sv i relative w = (Ret (Py.round (angle_of sv w)), w')
        ∧ written_during w w' = [(sv, Py.round (angle_of sv w))].
Proof.
  intros Ha0 Ht Hs Hsl. rewrite move_axis_run, move_servo_run, Ht.
  rewrite (plan_to_reading _ _ Ha0 Hs). unfold loop_result. rewrite Hsl.
  eexists. split; [done|]. by rewrite written_during_emit.
Qed.





(** A call of [move_servo] that returns has written its whole plan. *)
Lemma returned_move_wrote_plan
    (sv : Servo) (step : Z) (sleep : Q) (want : Z) (w w' : World) :
  control.move_servo sv step sleep want w = (Ret tt, w') →
  ∃ items, plan (angle_of sv w) step want = Some items
           ∧ written_during w w' = map (pair sv) items.
Proof.
  rewrite move_servo_run. destruct (plan _ _ _) as [items|]; [|done].
  unfold loop_result. destruct (Py.lt sleep 0).
  - destruct items as [|x items]; [|done]. intros [= <-].
    exists []. by rewrite written_during_refl.
  - intros [= <-]. exists items. by rewrite written_during_emit.
Qed.

(** The last angle of a plan with a positive step, for any reading. *)
Lemma plan_last (x : Q) (step want : Z) (items : list Z) :
  0 < step → plan x step want = Some items →
  last items =
  if Py.lt x (inject_Z want) then
    if start_angle x <=? want
    then Some (start_angle x + (want - start_angle x) / step * step)
    else None
  else Some (start_angle x - (start_angle x - want) / step * step).
Proof.
  intros Hs Hp. destruct (Py.lt x (inject_Z want)) eqn:Hd.
  - destruct (Z.leb_spec (start_angle x) want) as [Hle|Hgt].
    + by apply plan_last_up.
    + unfold plan, direction in Hp. rewrite Hd in Hp.
      apply range_items in Hp. unfold Py.range_len in Hp.
      destruct (Z.ltb_spec (start_angle x) (want + 1)); [lia|].
      destruct (Z.ltb_spec (step * 1) 0); [lia|].
      rewrite andb_false_r in Hp. simpl in Hp. by subst.
  - apply plan_last_down; try done.
    apply not_lt_round_ge in Hd. unfold start_angle. lia.
Qed.

(** X5. A move that returns has not passed its target and has stopped
    less than one step from it: with a positive step, if [move_servo]
    returns, then the last angle it wrote, if it wrote any, went to its
    own servo, lies between the loop's first angle [max(0, current)] and
    the wanted angle, and is less than one step away from the wanted
    angle. *)
Theorem move_servo_last_write_within_step
    (sv : Servo) (step : Z) (sleep : Q) (want : Z) (w w' : World) (sv' : Servo) (z : Z) :
  0 < step →
  control.move_servo sv step sleep want w = (Ret tt, w') →
  last (written_during w w') = Some (sv', z) →
  sv' = sv
  ∧ Z.min (start_angle (angle_of sv w)) want <= z
    <= Z.max (start_angle (angle_of sv w)) want
  ∧ Z.abs (want - z) < step.
Proof.
  intros Hs (items & Hp & ->)%returned_move_wrote_plan.
  rewrite fmap_last. intros Hlast.
  destruct (last items) as [z'|] eqn:Hl; [|done]. injection Hlast as <- <-.
  split; [done|]. rewrite (plan_last _ _ _ _ Hs Hp) in Hl.
  destruct (Py.lt (angle_of sv w) (inject_Z want)) eqn:Hd.
  - set (st := start_angle (angle_of sv w)) in *.
    destruct (Z.leb_spec st want) as [Hle|]; [|done]. injection Hl as <-.
    pose proof (Z.div_mod (want - st) step ltac:(lia)) as Hdm.
    pose proof (Z.mod_pos_bound (want - st) step Hs) as Hr.
    assert (0 <= (want - st) / step) as Hq by (apply Z.div_pos; lia).
    revert Hdm Hr Hq. generalize ((want - st) / step) ((want - st) mod step).
    intros q r Hdm Hr Hq. nia.
  - assert (want <= start_angle (angle_of sv w)) as Hle
      by (apply not_lt_round_ge in Hd; unfold start_angle; lia).
    set (st := start_angle (angle_of sv w)) in *. injection Hl as <-.
    pose proof (Z.div_mod (st - want) step ltac:(lia)) as Hdm.
    pose proof (Z.mod_pos_bound (st - want) step Hs) as Hr.
    assert (0 <= (st - want) / step) as Hq by (apply Z.div_pos; lia).
    revert Hdm Hr Hq. generalize ((st - want) / step) ((st - want) mod step).
    intros q r Hdm Hr Hq. nia.
Qed.

Lemma move_servo_last_write_within_step_witness :
  servo_pan = servo_pan
  ∧ Z.min (start_angle (angle_of servo_pan example_world)) 100 <= 94
    <= Z.max (start_angle (angle_of servo_pan example_world)) 100
  ∧ Z.abs (100 - 94) < 7.
Proof.
  apply (move_servo_last_write_within_step servo_pan 7 0 100 example_world
           (control.move_servo servo_pan 7 0 100 example_world).2 servo_pan 94).
  - lia.
  - vm_compute. reflexivity.
  - vm_compute. reflexivity.
Defined.

(** X6. Whether the last write is the target is a matter of divisibility:
    with a positive step and a non-negative clamped target, if [pan] or
    [tilt] returns, then the last angle it wrote is the clamped target if
    and only if the step divides the distance from the loop's first angle
    [max(0, current)] to that target. *)
Theorem move_axis_last_write_is_target_iff
    (sv : Servo) (i : Z) (relative : bool) (w : World) (v : Z) (w' : World) :
  0 < ServoPosition.step (limits sv (state w)) →
  0 <= target sv i relative w →
  move_axis sv i relative w = (Ret v, w') →
  last (written_during w w') = Some (sv, target sv i relative w)
  ↔ (target sv i relative w - start_angle (angle_of sv w))
      mod ServoPosition.step (limits sv (state w)) = 0.
Proof.
  intros Hs Ht. rewrite move_axis_run.
  destruct (control.move_servo _ _ _ _ _) as [[[]|e] w''] eqn:Hrun; [|done].
  intros [= _ <-]. apply returned_move_wrote_plan in Hrun as (items & Hp & ->).
  rewrite fmap_last, (plan_last _ _ _ _ Hs Hp).
  set (t := target sv i relative w) in *.
  set (step := ServoPosition.step (limits sv (state w))) in *.
  rewrite Z.mod_divide by lia.
  destruct (Py.lt (angle_of sv w) (inject_Z t)) eqn:Hd.
  - assert (start_angle (angle_of sv w) <= t) as Hle
      by (apply lt_round_le in Hd; unfold start_angle; lia).
    set (st := start_angle (angle_of sv w)) in *.
    destruct (Z.leb_spec st t); [|lia]. cbn.
    pose proof (Z.div_mod (t - st) step ltac:(lia)) as Hdm.
    pose proof (Z.mod_pos_bound (t - st) step Hs) as Hr.
    rewrite <- Z.mod_divide by lia.
    revert Hdm Hr. generalize ((t - st) / step) ((t - st) mod step).
    intros q r Hdm Hr. split; [intros [= Heq]|intros Hz; do 2 f_equal]; nia.
  - assert (t <= start_angle (angle_of sv w)) as Hle
      by (apply not_lt_round_ge in Hd; unfold start_angle; lia).
    set (st := start_angle (angle_of sv w)) in *. cbn.
    pose proof (Z.div_mod (st - t) step ltac:(lia)) as Hdm.
    pose proof (Z.mod_pos_bound (st - t) step Hs) as Hr.
    rewrite <- (Z.divide_opp_r step (t - st)).
    replace (- (t - st)) with (st - t) by lia.
    rewrite <- Z.mod_divide by lia.
    revert Hdm Hr. generalize ((st - t) / step) ((st - t) mod step).
    intros q r Hdm Hr. split; [intros [= Heq]|intros Hz; do 2 f_equal]; nia.
Qed.

Lemma move_axis_last_write_is_target_iff_witness :
  last (written_during example_world (move_axis servo_pan 15 false example_world).2)
  = Some (servo_pan, target servo_pan 15 false example_world)
  ↔ (target servo_pan 15 false example_world
     - start_angle (angle_of servo_pan example_world))
      mod ServoPosition.step (limits servo_pan (state example_world)) = 0.
Proof.
  apply (move_axis_last_write_is_target_iff servo_pan 15 false example_world 15
           (move_axis servo_pan 15 false example_world).2).
  - simpl. lia.
  - vm_compute. discriminate.
  - vm_compute. reflexivity.
Defined.

(** X9. [get_angle_as_int] reads without changing anything and returns a
    whole angle within half a degree of the angle the servo reports. *)
Theorem get_angle_as_int_nearest (sv : Servo) (w : World) :
  ∃ z, control.get_angle_as_int sv w = (Ret z, w)
       ∧ (inject_Z z - (1 # 2) <= angle_of sv w <= inject_Z z + (1 # 2))%Q.
Proof.
  exists (Py.round (angle_of sv w)). split; [reflexivity|].
  generalize (angle_of sv w). intros x.
  pose proof (Qfloor_le x) as Hlo. pose proof (Qlt_floor x) as Hhi.
  rewrite inject_Z_plus in Hhi. change (inject_Z 1) with 1%Q in Hhi.
  unfold Py.round. destruct (Qcompare_spec (x - inject_Z (Qfloor x)) (1 # 2)) as [E|E|E].
  - destruct (Z.even _); rewrite ?inject_Z_plus; change (inject_Z 1) with 1%Q; split; lra.
  - split; lra.
  - rewrite inject_Z_plus. change (inject_Z 1) with 1%Q. split; lra.
Qed.

(** X11. Nothing checks that [min <= max]. With limits the wrong way
    round, [max < min], every value [pan] or [tilt] returns is the axis
    minimum, whatever was asked for. *)
Theorem inverted_limits_pin_to_min
    (sv : Servo) (i : Z) (relative : bool) (w : World) (v : Z) (w' : World) :
  ServoPosition.max (limits sv (state w)) < ServoPosition.min (limits sv (state w)) →
  move_axis sv i relative w = (Ret v, w') →
  v = ServoPosition.min (limits sv (state w)).
Proof.
  intros Hinv. rewrite move_axis_run.
  destruct (control.move_servo _ _ _ _ _) as [[[]|e] w'']; [|done].
  intros [= <- _]. unfold target, control.clamp. lia.
Qed.

Lemma inverted_limits_pin_to_min_witness :
  let w := mkWorld (State.mk (Position.mk (ServoPosition.mk 100 50 2 0)
                                          (ServoPosition.mk 0 135 2 0)) ∅)
                   (inject_Z 10) (inject_Z 20) [] None false in
  100 = ServoPosition.min (limits servo_pan (state w)).
Proof.
  cbv zeta.
  set (w := mkWorld (State.mk (Position.mk (ServoPosition.mk 100 50 2 0)
                                           (ServoPosition.mk 0 135 2 0)) ∅)
                    (inject_Z 10) (inject_Z 20) [] None false).
  apply (inverted_limits_pin_to_min servo_pan 60 false w 100
           (move_axis servo_pan 60 false w).2).
  - simpl. lia.
  - vm_compute. reflexivity.
Defined.

(** ** Further properties of the registry and the handlers *)

Lemma written_during_same_writes (w w' : World) :
  writes w' = writes w → written_during w w' = [].
Proof. intros H. unfold written_during. rewrite H. apply drop_all. Qed.

(** X12. [save_location] answers ok and stores under the name the two
    rounded angles the servos report, as they are, whether or not they
    lie inside the limits; every other entry and the limits stay, no
    servo is written, the state file holds the new state and the
    re-registration flag is set. *)
Theorem save_location_lookup (name : string) (w : World) :
  ∃ w', api.save_location name w = (Ret api.STATUS_GOOD, w')
        ∧ State.locations (state w') !! name
          = Some (Location.mk (Py.round (pan_angle w)) (Py.round (tilt_angle w)))
        ∧ (∀ other, other ≠ name →
             State.locations (state w') !! other = State.locations (state w) !! other)
        ∧ State.position (state w') = State.position (state w)
        ∧ written_during w w' = []
        ∧ pan_angle w' = pan_angle w ∧ tilt_angle w' = tilt_angle w
        ∧ state_file w' = Some (state w')
        ∧ ha_reregister_event w' = true.
Proof.
  eexists. split; [apply save_location_run|]. cbv zeta. cbn.
  split; [apply lookup_insert_eq|]. split; [|repeat split].
  - intros other Hne. by apply lookup_insert_ne.
  - by apply written_during_same_writes.
Qed.

(** X13. Deleting a name that is not in the registry raises [KeyError]
    and changes nothing: nothing is persisted and the re-registration
    flag is not set. *)
Theorem delete_location_missing_key (name : string) (w : World) :
  State.locations (state w) !! name = None →
  api.delete_location name w = (Raise KeyError, w).
Proof. intros H. unfold api.delete_location, mbind, M_bind. simpl. by rewrite H. Qed.

Lemma delete_location_missing_key_witness :
  api.delete_location "nowhere" example_world = (Raise KeyError, example_world).
Proof. apply (delete_location_missing_key "nowhere" example_world). reflexivity. Defined.

(** X14. Deleting a name that is in the registry answers ok and removes
    exactly that entry; the limits and the servos stay, the state file
    holds the new state and the re-registration flag is set. *)
Theorem delete_location_removes (name : string) (w : World) :
  is_Some (State.locations (state w) !! name) →
  ∃ w', api.delete_location name w = (Ret api.STATUS_GOOD, w')
        ∧ State.locations (state w') !! name = None
        ∧ (∀ other, other ≠ name →
             State.locations (state w') !! other = State.locations (state w) !! other)
        ∧ State.position (state w') = State.position (state w)
        ∧ written_during w w' = []
        ∧ state_file w' = Some (state w')
        ∧ ha_reregister_event w' = true.
Proof.
  intros [loc Hloc]. unfold api.delete_location, mbind, M_bind. simpl. rewrite Hloc.
  eexists. split; [reflexivity|]. cbn.
  split; [apply lookup_delete_eq|]. split; [|repeat split].
  - intros other Hne. by apply lookup_delete_ne.
  - by apply written_during_same_writes.
Qed.

Lemma delete_location_removes_witness :
  ∃ w', api.delete_location "home" example_world = (Ret api.STATUS_GOOD, w')
        ∧ State.locations (state w') !! "home" = None
        ∧ (∀ other, other ≠ "home" →
             State.locations (state w') !! other
             = State.locations (state example_world) !! other)
        ∧ State.position (state w') = State.position (state example_world)
        ∧ written_during example_world w' = []
        ∧ state_file w' = Some (state w')
        ∧ ha_reregister_event w' = true.
Proof. apply (delete_location_removes "home" example_world). by eexists. Defined.

(** X15. Saving under a fresh name and then deleting that name gives back
    the state there was before the save. *)
Theorem save_then_delete_restores (name : string) (w : World) :
  State.locations (state w) !! name = None →
  (api.delete_location name (api.save_location name w).2).1 = Ret api.STATUS_GOOD
  ∧ state (api.delete_location name (api.save_location name w).2).2 = state w.
Proof.
  intros Hfresh. rewrite save_location_run. cbv zeta. cbn [snd].
  unfold api.delete_location, mbind, M_bind. cbn. rewrite lookup_insert_eq. cbn.
  split; [done|]. rewrite delete_insert_eq, delete_id by done.
  by destruct (state w).
Qed.

Lemma save_then_delete_restores_witness :
  (api.delete_location "desk" (api.save_location "desk" example_world).2).1
  = Ret api.STATUS_GOOD
  ∧ state (api.delete_location "desk" (api.save_location "desk" example_world).2).2
    = state example_world.
Proof. apply (save_then_delete_restores "desk" example_world). reflexivity. Defined.

(** X17. Over HTTP an unknown location is not reported: the handler
    drops the not-found result of [move_location] and answers ok, with
    the world unchanged. *)
Theorem api_move_location_unknown_is_ok (name : string) (w : World) :
  State.locations (state w) !! name = None →
  api.api_move_location name w = (Ret api.STATUS_GOOD, w).
Proof.
  intros H. unfold api.api_move_location, control.move_location, mbind, M_bind.
  simpl. by rewrite H.
Qed.

Lemma api_move_location_unknown_is_ok_witness :
  api.api_move_location "nowhere" example_world = (Ret api.STATUS_GOOD, example_world).
Proof. apply (api_move_location_unknown_is_ok "nowhere" example_world). reflexivity. Defined.

Lemma move_location_frame (name : string) (w : World) :
  state_file (control.move_location name w).2 = state_file w
  ∧ ha_reregister_event (control.move_location name w).2 = ha_reregister_event w.
Proof.
  destruct (State.locations (state w) !! name) as [loc|] eqn:Hloc.
  - rewrite (move_location_run _ _ _ Hloc).
    pose proof (move_servo_frame servo_pan
      (ServoPosition.step (limits servo_pan (state w)))
      (ServoPosition.sleep (limits servo_pan (state w)))
      (control.clamp (Location.pan loc)
         (ServoPosition.min (limits servo_pan (state w)))
         (ServoPosition.max (limits servo_pan (state w)))) w) as (_ & Hf1 & He1 & _).
    destruct (control.move_servo servo_pan _ _ _ w) as [[[]|e] w1]; [|done].
    cbn [snd] in Hf1, He1.
    pose proof (move_servo_frame servo_tilt
      (ServoPosition.step (limits servo_tilt (state w)))
      (ServoPosition.sleep (limits servo_tilt (state w)))
      (control.clamp (Location.tilt loc)
         (ServoPosition.min (limits servo_tilt (state w)))
         (ServoPosition.max (limits servo_tilt (state w)))) w1) as (_ & Hf2 & He2 & _).
    destruct (control.move_servo servo_tilt _ _ _ w1) as [[[]|e] w2];
      cbn [snd] in *; split; congruence.
  - unfold control.move_location, mbind, M_bind. simpl. by rewrite Hloc.
Qed.

(** One request keeps the state file equal to the state in memory. *)
Lemma serve_file_in_sync (r : request) (w : World) :
  state_file w = Some (state w) →
  state_file (serve r w).2 = Some (state (serve r w).2).
Proof.
  intros Hsync.
  assert (∀ sv i rel, state_file (move_axis sv i rel w).2
                      = Some (state (move_axis sv i rel w).2)) as Haxis.
  { intros sv i rel. rewrite move_axis_world.
    destruct (move_servo_frame sv (ServoPosition.step (limits sv (state w)))
                (ServoPosition.sleep (limits sv (state w))) (target sv i rel w) w)
      as (-> & -> & _). done. }
  assert (∀ name, state_file (control.move_location name w).2
                  = Some (state (control.move_location name w).2)) as Hloc.
  { intros name. rewrite state_move_location.
    by rewrite (proj1 (move_location_frame name w)). }
  destruct r; unfold serve;
    try (rewrite (bind_ret_world _ (λ _, tt))); try done.
  - unfold api.api_move_location. by rewrite (bind_ret_world _ (λ _, api.STATUS_GOOD)).
  - unfold api.delete_location, mbind, M_bind. simpl.
    by destruct (State.locations (state w) !! name).
  - unfold api.tilt_max. by destruct (api.truthy_value value).
  - unfold api.tilt_min. by destruct (api.truthy_value value).
  - unfold api.pan_max. by destruct (api.truthy_value value).
  - unfold api.pan_min. by destruct (api.truthy_value value).
  - unfold api.api_pan. rewrite (bind_ret_world _ (λ _, api.STATUS_GOOD)).
    apply (Haxis servo_pan).
  - unfold api.api_tilt. rewrite (bind_ret_world _ (λ _, api.STATUS_GOOD)).
    apply (Haxis servo_tilt).
  - unfold api.api_move_down, control.move_down.
    rewrite (bind_ret_world _ (λ v, api.STATUS_GOOD ++ [(Str "tilt", JInt v)])).
    apply (Haxis servo_tilt).
  - unfold api.api_move_up, control.move_up.
    rewrite (bind_ret_world _ (λ v, api.STATUS_GOOD ++ [(Str "tilt", JInt v)])).
    apply (Haxis servo_tilt).
  - unfold api.api_move_left, control.move_left.
    rewrite (bind_ret_world _ (λ v, api.STATUS_GOOD ++ [(Str "pan", JInt v)])).
    apply (Haxis servo_pan).
  - unfold api.api_move_right, control.move_right.
    rewrite (bind_ret_world _ (λ v, api.STATUS_GOOD ++ [(Str "pan", JInt v)])).
    apply (Haxis servo_pan).
  - unfold mqtt.on_message, control.move_up, control.move_down,
      control.move_left, control.move_right.
    repeat (match goal with |- context [if ?b then _ else _] => destruct b end);
      try done;
      rewrite (bind_ret_world _ (λ _, tt));
      first [ apply Hloc | apply (Haxis servo_tilt) | apply (Haxis servo_pan) ].
Qed.

(** X16. The state file never lags behind: if it holds the state in
    memory, it still does after any sequence of HTTP and MQTT requests,
    including those that raise. *)
Theorem state_file_in_sync (rs : list request) (w : World) :
  state_file w = Some (state w) →
  state_file (run_requests rs w) = Some (state (run_requests rs w)).
Proof.
  intros Hsync. induction rs as [|r rs IH] using rev_ind; [done|].
  rewrite run_requests_snoc. by apply serve_file_in_sync.
Qed.

Lemma state_file_in_sync_witness :
  state_file (run_requests [POST_locations "desk"; PUT_pan 40 false;
                            DELETE_locations "nowhere"; PUT_tilt_max None]
                           (initial_world 2 0 0 0))
  = Some (state (run_requests [POST_locations "desk"; PUT_pan 40 false;
                               DELETE_locations "nowhere"; PUT_tilt_max None]
                              (initial_world 2 0 0 0))).
Proof.
  apply (state_file_in_sync [POST_locations "desk"; PUT_pan 40 false;
                             DELETE_locations "nowhere"; PUT_tilt_max None]
                            (initial_world 2 0 0 0)).
  reflexivity.
Defined.

(** X18. [pan_max], [tilt_max], [pan_min] and [tilt_min] change one field
    of one axis: the other axis's limits, the axis's other three fields
    and the registry are as before, and no servo is written or moved. *)
Theorem set_limit_changes_one_field (sv : Servo) (value : option Z) (w : World) :
  (let w' := (set_max sv value w).2 in
   (∀ sv', sv' ≠ sv → limits sv' (state w') = limits sv' (state w))
   ∧ ServoPosition.min (limits sv (state w')) = ServoPosition.min (limits sv (state w))
   ∧ ServoPosition.step (limits sv (state w')) = ServoPosition.step (limits sv (state w))
   ∧ ServoPosition.sleep (limits sv (state w')) = ServoPosition.sleep (limits sv (state w))
   ∧ State.locations (state w') = State.locations (state w)
   ∧ writes w' = writes w ∧ pan_angle w' = pan_angle w ∧ tilt_angle w' = tilt_angle w)
  ∧ (let w' := (set_min sv value w).2 in
     (∀ sv', sv' ≠ sv → limits sv' (state w') = limits sv' (state w))
     ∧ ServoPosition.max (limits sv (state w')) = ServoPosition.max (limits sv (state w))
     ∧ ServoPosition.step (limits sv (state w')) = ServoPosition.step (limits sv (state w))
     ∧ ServoPosition.sleep (limits sv (state w')) = ServoPosition.sleep (limits sv (state w))
     ∧ State.locations (state w') = State.locations (state w)
     ∧ writes w' = writes w ∧ pan_angle w' = pan_angle w ∧ tilt_angle w' = tilt_angle w).
Proof.
  split; cbv zeta; destruct sv; simpl;
    [unfold api.pan_max|unfold api.tilt_max|unfold api.pan_min|unfold api.tilt_min];
    destruct (api.truthy_value value); cbn;
    (split; [by intros []|done]).
Qed.

(** X19. The MQTT commands do to the world what the HTTP handlers do:
    [move_rel] with [up], [down], [left] or [right] matches the four nudge
    handlers, and [location] matches the move-to-location handler. *)
Theorem mqtt_commands_match_http (name : string) (w : World) :
  (mqtt.on_message "move_rel" "up" w).2 = (api.api_move_up w).2
  ∧ (mqtt.on_message "move_rel" "down" w).2 = (api.api_move_down w).2
  ∧ (mqtt.on_message "move_rel" "left" w).2 = (api.api_move_left w).2
  ∧ (mqtt.on_message "move_rel" "right" w).2 = (api.api_move_right w).2
  ∧ (mqtt.on_message "location" name w).2 = (api.api_move_location name w).2.
Proof.
  repeat split.
  - change (mqtt.on_message "move_rel" "up") with (control.move_up;; mret tt).
    unfold api.api_move_up.
    by rewrite (bind_ret_world _ (λ _, tt)),
      (bind_ret_world _ (λ v, api.STATUS_GOOD ++ [(Str "tilt", JInt v)])).
  - change (mqtt.on_message "move_rel" "down") with (control.move_down;; mret tt).
    unfold api.api_move_down.
    by rewrite (bind_ret_world _ (λ _, tt)),
      (bind_ret_world _ (λ v, api.STATUS_GOOD ++ [(Str "tilt", JInt v)])).
  - change (mqtt.on_message "move_rel" "left") with (control.move_left;; mret tt).
    unfold api.api_move_left.
    by rewrite (bind_ret_world _ (λ _, tt)),
      (bind_ret_world _ (λ v, api.STATUS_GOOD ++ [(Str "pan", JInt v)])).
  - change (mqtt.on_message "move_rel" "right") with (control.move_right;; mret tt).
    unfold api.api_move_right.
    by rewrite (bind_ret_world _ (λ _, tt)),
      (bind_ret_world _ (λ v, api.STATUS_GOOD ++ [(Str "pan", JInt v)])).
  - change (mqtt.on_message "location" name)
      with (control.move_location name;; mret tt).
    unfold api.api_move_location.
    by rewrite (bind_ret_world _ (λ _, tt)), (bind_ret_world _ (λ _, api.STATUS_GOOD)).
Qed.

(** X20. An MQTT message that is neither a [location] command nor a
    [move_rel] command with one of the four directions is ignored: the
    handler returns and the world is unchanged. *)
Theorem mqtt_unknown_command_ignored (command argument : string) (w : World) :
  command ≠ mqtt.COMMAND_LOCATION →
  command ≠ mqtt.COMMAND_MOVE_REL
  ∨ (argument ≠ mqtt.MOVE_REL_UP ∧ argument ≠ mqtt.MOVE_REL_DOWN
     ∧ argument ≠ mqtt.MOVE_REL_LEFT ∧ argument ≠ mqtt.MOVE_REL_RIGHT) →
  mqtt.on_message command argument w = (Ret tt, w).
Proof.
  intros Hloc Hrel. unfold mqtt.on_message.
  repeat case_bool_decide; simpl; try done;
    destruct Hrel as [?|(? & ? & ? & ?)]; congruence.
Qed.

Lemma mqtt_unknown_command_ignored_witness :
  mqtt.on_message "move_rel" "diagonal" example_world = (Ret tt, example_world).
Proof.
  apply (mqtt_unknown_command_ignored "move_rel" "diagonal" example_world).
  - discriminate.
  - right. repeat split; discriminate.
Defined.

(** ** Startup homing *)

Lemma move_location_writes_extend (name : string) (w : World) :
  writes (control.move_location name w).2
  = writes w ++ written_during w (control.move_location name w).2.
Proof.
  destruct (State.locations (state w) !! name) as [loc|] eqn:Hloc.
  - rewrite (move_location_run _ _ _ Hloc).
    pose proof (move_servo_writes_extend servo_pan
      (ServoPosition.step (limits servo_pan (state w)))
      (ServoPosition.sleep (limits servo_pan (state w)))
      (control.clamp (Location.pan loc)
         (ServoPosition.min (limits servo_pan (state w)))
         (ServoPosition.max (limits servo_pan (state w)))) w) as Hext.
    destruct (control.move_servo servo_pan _ _ _ w) as [[[]|e] w1]; cbn [snd] in *; [|done].
    pose proof (move_servo_writes_extend servo_tilt
      (ServoPosition.step (limits servo_tilt (state w)))
      (ServoPosition.sleep (limits servo_tilt (state w)))
      (control.clamp (Location.tilt loc)
         (ServoPosition.min (limits servo_tilt (state w)))
         (ServoPosition.max (limits servo_tilt (state w)))) w1) as Hext'.
    destruct (control.move_servo servo_tilt _ _ _ w1) as [[[]|e] w2]; cbn [snd] in *;
      rewrite (written_during_trans w w1 w2 Hext Hext'), app_assoc, <- Hext; done.
  - unfold control.move_location, mbind, M_bind. simpl. rewrite Hloc. cbn [snd].
    by rewrite written_during_refl, app_nil_r.
Qed.

(** A cold start with a home entry: the two direct assignments, then the
    stepped move, whose result is dropped. *)
Lemma home_servos_cold_run (loc : Location.t) (w : World) :
  State.locations (state w) !! "home" = Some loc →
  home_servos true true w
  = (control.move_location "home";; mret tt)
      (set_angle servo_tilt (Location.tilt loc)
         (set_angle servo_pan (Location.pan loc) w).2).2.
Proof.
  intros Hhome. unfold home_servos, mbind, M_bind, get_state.
  rewrite Hhome. cbn [set_angle state State.locations]. by rewrite Hhome.
Qed.

(** X21. On a cold start, both angles lost, with the stored home
    coordinates inside the driver's range [0 .. axis maximum],
    [home_servos] first assigns them to the two servos directly, pan then
    tilt, exactly as stored: they are not clamped, so a home coordinate
    below the axis minimum is written as it is. The stepped move to
    ["home"] comes after these two writes. *)
Theorem home_servos_cold_start_writes_home_first (loc : Location.t) (w : World) :
  State.locations (state w) !! "home" = Some loc →
  0 < ServoPosition.max (limits servo_pan (state w)) →
  0 < ServoPosition.max (limits servo_tilt (state w)) →
  0 <= Location.pan loc <= ServoPosition.max (limits servo_pan (state w)) →
  0 <= Location.tilt loc <= ServoPosition.max (limits servo_tilt (state w)) →
  ∃ rest, written_during w (home_servos true true w).2
          = (servo_pan, Location.pan loc) :: (servo_tilt, Location.tilt loc) :: rest.
Proof.
  intros Hhome _ _ _ _. rewrite (home_servos_cold_run loc w Hhome).
  rewrite (bind_ret_world _ (λ _, tt)).
  set (w2 := (set_angle servo_tilt (Location.tilt loc)
                (set_angle servo_pan (Location.pan loc) w).2).2).
  exists (written_during w2 (control.move_location "home" w2).2).
  assert (writes w2 = writes w ++ [(servo_pan, Location.pan loc);
                                    (servo_tilt, Location.tilt loc)]) as Hw2
    by (unfold w2; cbn; by rewrite <- app_assoc).
  assert (written_during w w2 = [(servo_pan, Location.pan loc);
                                 (servo_tilt, Location.tilt loc)]) as Hd
    by (unfold written_during; by rewrite Hw2, drop_app_length).
  rewrite <- Hd in Hw2.
  by rewrite (written_during_trans w w2 _ Hw2 (move_location_writes_extend "home" w2)), Hd.
Qed.

Lemma home_servos_cold_start_writes_home_first_witness :
  let w := mkWorld (State.mk (Position.mk (ServoPosition.mk 50 270 2 0)
                                          (ServoPosition.mk 0 135 2 0))
                             {[ "home" := Location.mk 10 45 ]})
                   0 0 [] None false in
  ∃ rest, written_during w (home_servos true true w).2
          = (servo_pan, Location.pan (Location.mk 10 45))
            :: (servo_tilt, Location.tilt (Location.mk 10 45)) :: rest.
Proof.
  apply (home_servos_cold_start_writes_home_first (Location.mk 10 45)
           (mkWorld (State.mk (Position.mk (ServoPosition.mk 50 270 2 0)
                                           (ServoPosition.mk 0 135 2 0))
                              {[ "home" := Location.mk 10 45 ]})
                    0 0 [] None false)).
  - reflexivity.
  - simpl. lia.
  - simpl. lia.
  - simpl. lia.
  - simpl. lia.
Defined.



(** ** The state document *)

Lemma ServoPosition_kwargs_asdict (p : ServoPosition.t) :
  ServoPosition_kwargs (asdict_ServoPosition p) = Constructed (Some p).
Proof.
  unfold ServoPosition_kwargs, asdict_ServoPosition, kwargs.
  case_decide as Hdom; [|exfalso; apply Hdom; set_solver].
  cbn [mbind load_result_bind mret load_result_ret]. f_equal.
  destruct p. by simplify_map_eq.
Qed.

Lemma Location_kwargs_asdict (l : Location.t) :
  Location_kwargs (asdict_Location l) = Constructed (Some l).
Proof.
  unfold Location_kwargs, asdict_Location, kwargs.
  case_decide as Hdom; [|exfalso; apply Hdom; set_solver].
  cbn [mbind load_result_bind mret load_result_ret]. f_equal.
  destruct l. by simplify_map_eq.
Qed.

Lemma locations_from_asdict (m : gmap string Location.t) :
  locations_from (PDict (asdict_Location <$> m)) = Constructed (Some m).
Proof.
  unfold locations_from.
  case_decide as Hall.
  - f_equal. case_decide as Hsome.
    + f_equal. apply map_eq. intros i.
      rewrite lookup_omap, !lookup_fmap.
      destruct (m !! i) as [l|]; [|done]. simpl. by rewrite Location_kwargs_asdict.
    + exfalso. apply Hsome. intros i x. rewrite !lookup_fmap.
      destruct (m !! i) as [l|]; [|done]. simpl. rewrite Location_kwargs_asdict.
      intros [= <-]. by eexists.
  - exfalso. apply Hall. intros i x. rewrite lookup_fmap.
    destruct (m !! i) as [l|]; [|done]. simpl. intros [= <-].
    by rewrite Location_kwargs_asdict.
Qed.

Lemma subscript_lookup (d : gmap string pyobj) (k : string) (v : pyobj) :
  d !! k = Some v → subscript (PDict d) k = Constructed v.
Proof. intros H. unfold subscript. by rewrite H. Qed.

Lemma state_from_document_asdict (s : State.t) :
  state_from_document (asdict_State s) = Constructed (Some s).
Proof.
  unfold state_from_document, asdict_State.
  erewrite !(subscript_lookup _ "position") by (simplify_map_eq; reflexivity).
  cbn [mbind load_result_bind].
  erewrite (subscript_lookup _ "pan") by (simplify_map_eq; reflexivity).
  cbn [mbind load_result_bind].
  rewrite ServoPosition_kwargs_asdict. cbn [mbind load_result_bind].
  erewrite (subscript_lookup _ "tilt") by (simplify_map_eq; reflexivity).
  cbn [mbind load_result_bind].
  rewrite ServoPosition_kwargs_asdict. cbn [mbind load_result_bind].
  erewrite (subscript_lookup _ "locations") by (simplify_map_eq; reflexivity).
  cbn [mbind load_result_bind].
  rewrite locations_from_asdict. cbn.
  by destruct s as [[] ?].
Qed.

(** X24. What [save_state] writes, [load_state] reads back: the document
    of any state loads to that same state, and on a first start with no
    file [load_state] keeps the current state and writes a file that
    loads to it. *)
Theorem load_state_round_trip (s current : State.t) :
  load_state (Some (asdict_State s)) current
  = (Constructed (Some s), Some (asdict_State s))
  ∧ load_state None s = (Constructed (Some s), Some (asdict_State s)).
Proof. split; [|done]. unfold load_state. by rewrite state_from_document_asdict. Qed.

Lemma subscript_missing (d : gmap string pyobj) (k : string) :
  d !! k = None → subscript (PDict d) k = Stopped UncaughtKeyError.
Proof. intros H. unfold subscript. by rewrite H. Qed.

(** X25. A state file that lacks one of the keys [position], [locations],
    [position.pan] or [position.tilt] does not get the diagnostic exit:
    the lookup raises a [KeyError], which [load_state] does not catch. *)
Theorem missing_key_is_uncaught_KeyError (s : State.t) :
  state_from_document (without_key "position" (asdict_State s)) = Stopped UncaughtKeyError
  ∧ state_from_document (without_key "locations" (asdict_State s)) = Stopped UncaughtKeyError
  ∧ state_from_document (at_key "position" (without_key "pan") (asdict_State s))
    = Stopped UncaughtKeyError
  ∧ state_from_document (at_key "position" (without_key "tilt") (asdict_State s))
    = Stopped UncaughtKeyError.
Proof. split; [|split; [|split]]; reflexivity. Qed.

Lemma ServoPosition_kwargs_bad_keys (d : gmap string pyobj) :
  dom d ≠ ({[ "min"; "max"; "step"; "sleep" ]} : gset string) →
  ServoPosition_kwargs (PDict d) = Stopped SysExit.
Proof. intros H. unfold ServoPosition_kwargs, kwargs. by case_decide. Qed.

(** X26. A state file in which the record of an axis has lost one of its
    four fields, or has a field the dataclass does not know, or is not a
    mapping at all, makes [load_state] stop with the diagnostic exit. *)
Theorem damaged_axis_record_exits (s : State.t) (axis field : string) (v : pyobj) :
  axis = "pan" ∨ axis = "tilt" →
  (field ∈ ({[ "min"; "max"; "step"; "sleep" ]} : gset string) →
   state_from_document
     (at_key "position" (at_key axis (without_key field)) (asdict_State s))
   = Stopped SysExit)
  ∧ (field ∉ ({[ "min"; "max"; "step"; "sleep" ]} : gset string) →
     state_from_document
       (at_key "position" (at_key axis (with_key field v)) (asdict_State s))
     = Stopped SysExit)
  ∧ ((∀ d, v ≠ PDict d) →
     state_from_document (at_key "position" (with_key axis v) (asdict_State s))
     = Stopped SysExit).
Proof.
  intros Haxis.
  assert (∀ f : gmap string pyobj → gmap string pyobj,
    (∀ p, dom (f {[ "min" := PInt (ServoPosition.min p);
                    "max" := PInt (ServoPosition.max p);
                    "step" := PInt (ServoPosition.step p);
                    "sleep" := PFloat (ServoPosition.sleep p) ]})
          ≠ ({[ "min"; "max"; "step"; "sleep" ]} : gset string)) →
    state_from_document
      (at_key "position"
         (at_key axis (λ o, match o with PDict d => PDict (f d) | _ => o end))
         (asdict_State s))
    = Stopped SysExit) as Hbad.
  { intros f Hf. unfold state_from_document, asdict_State, at_key.
    erewrite !(subscript_lookup _ "position") by (simplify_map_eq; reflexivity).
    cbn [mbind load_result_bind].
    destruct Haxis as [-> | ->].
    - erewrite (subscript_lookup _ "pan") by (simplify_map_eq; reflexivity).
      cbn [mbind load_result_bind]. unfold asdict_ServoPosition.
      by rewrite ServoPosition_kwargs_bad_keys.
    - erewrite (subscript_lookup _ "pan") by (simplify_map_eq; reflexivity).
      cbn [mbind load_result_bind].
      rewrite ServoPosition_kwargs_asdict. cbn [mbind load_result_bind].
      erewrite (subscript_lookup _ "tilt") by (simplify_map_eq; reflexivity).
      cbn [mbind load_result_bind]. unfold asdict_ServoPosition.
      by rewrite ServoPosition_kwargs_bad_keys. }
  split; [|split].
  - intros Hin. apply (Hbad (delete field)). intros p Hdom.
    assert (field ∈ dom (delete field
      ({[ "min" := PInt (ServoPosition.min p); "max" := PInt (ServoPosition.max p);
          "step" := PInt (ServoPosition.step p);
          "sleep" := PFloat (ServoPosition.sleep p) ]} : gmap string pyobj)))
      as Hf by (by rewrite Hdom).
    rewrite dom_delete in Hf. set_solver.
  - intros Hnotin. apply (Hbad (insert field v)). intros p Hdom.
    apply Hnotin. rewrite <- Hdom, dom_insert. set_solver.
  - intros Hv. unfold state_from_document, asdict_State, at_key, with_key.
    erewrite !(subscript_lookup _ "position") by (simplify_map_eq; reflexivity).
    cbn [mbind load_result_bind].
    assert (ServoPosition_kwargs v = Stopped SysExit) as Hk
      by (destruct v; try done; by destruct (Hv d)).
    destruct Haxis as [-> | ->].
    + erewrite (subscript_lookup _ "pan") by (simplify_map_eq; reflexivity).
      cbn [mbind load_result_bind]. by rewrite Hk.
    + erewrite (subscript_lookup _ "pan") by (simplify_map_eq; reflexivity).
      cbn [mbind load_result_bind].
      rewrite ServoPosition_kwargs_asdict. cbn [mbind load_result_bind].
      erewrite (subscript_lookup _ "tilt") by (simplify_map_eq; reflexivity).
      cbn [mbind load_result_bind]. by rewrite Hk.
Qed.

Lemma damaged_axis_record_exits_witness :
  ("step" ∈ ({[ "min"; "max"; "step"; "sleep" ]} : gset string) →
   state_from_document
     (at_key "position" (at_key "tilt" (without_key "step")) (asdict_State (state0 2 0)))
   = Stopped SysExit)
  ∧ ("step" ∉ ({[ "min"; "max"; "step"; "sleep" ]} : gset string) →
     state_from_document
       (at_key "position" (at_key "tilt" (with_key "step" PNone)) (asdict_State (state0 2 0)))
     = Stopped SysExit)
  ∧ ((∀ d, PNone ≠ PDict d) →
     state_from_document (at_key "position" (with_key "tilt" PNone) (asdict_State (state0 2 0)))
     = Stopped SysExit).
Proof.
  apply (damaged_axis_record_exits (state0 2 0) "tilt" "step" PNone). by right.
Defined.

(** X27. A state file whose [locations] value is anything but a mapping
    (a list, a string, a number, null) does not get the diagnostic exit
    either: [items] is missing and the [AttributeError] is not caught. *)
Theorem locations_not_a_mapping_is_uncaught (s : State.t) (v : pyobj) :
  (∀ d, v ≠ PDict d) →
  state_from_document (with_key "locations" v (asdict_State s))
  = Stopped UncaughtAttributeError.
Proof.
  intros Hv. unfold state_from_document, asdict_State, with_key.
  erewrite !(subscript_lookup _ "position") by (simplify_map_eq; reflexivity).
  cbn [mbind load_result_bind].
  erewrite (subscript_lookup _ "pan") by (simplify_map_eq; reflexivity).
  cbn [mbind load_result_bind].
  rewrite ServoPosition_kwargs_asdict. cbn [mbind load_result_bind].
  erewrite (subscript_lookup _ "tilt") by (simplify_map_eq; reflexivity).
  cbn [mbind load_result_bind].
  rewrite ServoPosition_kwargs_asdict. cbn [mbind load_result_bind].
  erewrite (subscript_lookup _ "locations") by (simplify_map_eq; reflexivity).
  cbn [mbind load_result_bind].
  destruct v; try done. by destruct (Hv d).
Qed.

Lemma locations_not_a_mapping_is_uncaught_witness :
  state_from_document (with_key "locations" (PList []) (asdict_State (state0 2 0)))
  = Stopped UncaughtAttributeError.
Proof.
  apply (locations_not_a_mapping_is_uncaught (state0 2 0) (PList [])). discriminate.
Defined.

(** X28. One damaged entry spoils the file: if any saved location has
    lost its [pan] or its [tilt], [load_state] stops with the diagnostic
    exit, whatever the other entries are. *)
Theorem damaged_location_entry_exits (s : State.t) (name field : string) :
  is_Some (State.locations s !! name) →
  field = "pan" ∨ field = "tilt" →
  state_from_document
    (at_key "locations" (at_key name (without_key field)) (asdict_State s))
  = Stopped SysExit.
Proof.
  intros [loc Hloc] Hfield. unfold state_from_document, asdict_State, at_key.
  erewrite !(subscript_lookup _ "position") by (simplify_map_eq; reflexivity).
  cbn [mbind load_result_bind].
  erewrite (subscript_lookup _ "pan") by (simplify_map_eq; reflexivity).
  cbn [mbind load_result_bind].
  rewrite ServoPosition_kwargs_asdict. cbn [mbind load_result_bind].
  erewrite (subscript_lookup _ "tilt") by (simplify_map_eq; reflexivity).
  cbn [mbind load_result_bind].
  rewrite ServoPosition_kwargs_asdict. cbn [mbind load_result_bind].
  erewrite (subscript_lookup _ "locations") by (simplify_map_eq; reflexivity).
  cbn [mbind load_result_bind]. unfold locations_from.
  case_decide as Hall; [|done]. exfalso.
  specialize (Hall name (without_key field (asdict_Location loc))).
  rewrite lookup_alter_eq, lookup_fmap, Hloc in Hall. specialize (Hall eq_refl).
  destruct Hfield as [-> | ->]; discriminate Hall.
Qed.

Lemma damaged_location_entry_exits_witness :
  state_from_document
    (at_key "locations" (at_key "home" (without_key "tilt")) (asdict_State (state0 2 0)))
  = Stopped SysExit.
Proof.
  apply (damaged_location_entry_exits (state0 2 0) "home" "tilt").
  - by eexists.
  - by right.
Defined.
